(** * Crypto physical buyer: a shallow embedding of the purchase flow

    The development follows the TypeScript sources:
    - [src/index.ts]: product sources (identifier extraction, locators,
      validation), the order gateway ([getOrderStatus]) and the payment
      preparation poller ([waitForPaymentPreparation]);
    - [src/payment.ts]: the payment signer ([processPayment]);
    - [src/cli.ts]: the [buy] action, which sequences poller, signer and
      the post-payment monitor.

    Strings are [string]; JSON objects received from the service are finite
    maps from keys to JSON values; calls to the checkout service and to the
    chain are recorded in an event trace. *)

From stdpp Require Import base strings list gmap pretty.
From Stdlib Require Import Ascii String ZArith Lia.
From Equations.Prop Require Import Equations Logic.

Set Warnings "-register-all".
Set Default Proof Using "Type".

Local Open Scope string_scope.
Local Open Scope list_scope.

(** * Product sources (src/index.ts) *)

(** ** The pattern [/\/([A-Z0-9]{10})(?:\/|\?|$)/] *)

(** The character class [[A-Z0-9]]. *)
Definition isAsinChar (c : ascii) : bool :=
  let n := nat_of_ascii c in
  ((65 <=? n)%nat && (n <=? 90)%nat) || ((48 <=? n)%nat && (n <=? 57)%nat).

(** [[A-Z0-9]{n}] at the head of [s]: the characters matched and the rest
    of the input. *)
Fixpoint matchAsinChars (n : nat) (s : string) : option (string * string) :=
  match n with
  | O => Some ("", s)
  | S n' =>
      match s with
      | EmptyString => None
      | String c rest =>
          if isAsinChar c then
            match matchAsinChars n' rest with
            | Some (tok, rest') => Some (String c tok, rest')
            | None => None
            end
          else None
      end
  end.

(** The non-capturing group [(?:\/|\?|$)]: a slash, a question mark, or the
    end of the input (the pattern has no [m] flag). *)
Definition matchAsinEnd (s : string) : bool :=
  match s with
  | EmptyString => true
  | String c _ => Ascii.eqb c "/" || Ascii.eqb c "?"
  end.

(** The whole pattern anchored at the head of [s]; the result is capture
    group 1. *)
Definition matchAsinAt (s : string) : option string :=
  match s with
  | String "/" rest =>
      match matchAsinChars 10 rest with
      | Some (tok, rest') => if matchAsinEnd rest' then Some tok else None
      | None => None
      end
  | _ => None
  end.

(** [url.match(asinPattern)]: the leftmost position where the pattern
    matches; [match ? match[1] : null]. *)
Fixpoint asinPatternMatch (url : string) : option string :=
  match matchAsinAt url with
  | Some tok => Some tok
  | None =>
      match url with
      | EmptyString => None
      | String _ rest => asinPatternMatch rest
      end
  end.

(** [/^[A-Z0-9]{10}$/.test(identifier)] *)
Definition asinTest (identifier : string) : bool :=
  match matchAsinChars 10 identifier with
  | Some (_, EmptyString) => true
  | _ => false
  end.

(** ** Legacy functions *)

Definition extractAsinFromUrl (url : string) : option string :=
  asinPatternMatch url.

Definition createProductLocator (identifier : string) (isUrl : bool) : string :=
  if isUrl then "amazon:" +:+ identifier else "amazon:" +:+ identifier.

(** ** The [ProductSource] interface and its Amazon implementation *)

Module ProductSource.
Record t : Type := {
  name : string;
  extractProductId : string -> option string;
  createProductLocator : string -> bool -> string;
  validateIdentifier : string -> bool -> bool
}.
End ProductSource.

Module AmazonSource.

Definition name : string := "amazon".

Definition extractProductId (url : string) : option string :=
  asinPatternMatch url.

Definition createProductLocator (identifier : string) (isUrl : bool) : string :=
  if isUrl then
    match extractProductId identifier with
    | Some asin => if bool_decide (asin = "") then "amazon:" +:+ identifier
                   else "amazon:" +:+ asin
    | None => "amazon:" +:+ identifier
    end
  else "amazon:" +:+ identifier.

Definition validateIdentifier (identifier : string) (isUrl : bool) : bool :=
  if isUrl then
    match extractProductId identifier with
    | Some _ => true
    | None => false
    end
  else asinTest identifier.

End AmazonSource.

Definition AmazonSource : ProductSource.t := {|
  ProductSource.name := AmazonSource.name;
  ProductSource.extractProductId := AmazonSource.extractProductId;
  ProductSource.createProductLocator := AmazonSource.createProductLocator;
  ProductSource.validateIdentifier := AmazonSource.validateIdentifier
|}.

(** The source registry: a map keyed by source name, with the Amazon source
    registered at start-up. *)
Definition registerSource (source : ProductSource.t)
    (sources : gmap string ProductSource.t) : gmap string ProductSource.t :=
  <[ProductSource.name source := source]> sources.

Definition sourceRegistry : gmap string ProductSource.t :=
  registerSource AmazonSource ∅.

Definition getSource (name : string) : option ProductSource.t :=
  sourceRegistry !! name.

(** [identifier.includes(c)] for a single character. *)
Fixpoint includesChar (c : ascii) (s : string) : bool :=
  match s with
  | EmptyString => false
  | String d rest => Ascii.eqb d c || includesChar c rest
  end.

(** * JSON values received from the checkout service *)

(** [response.data] is untyped in the source.  Objects are finite maps, so
    that unknown keys are carried along; a key that is absent reads as
    [undefined], which is [None] here. *)
Inductive JValue : Type :=
| JNull
| JBool (b : bool)
| JNum (n : Z)
| JStr (s : string)
| JArr (items : list JValue)
| JObj (fields : gmap string JValue).

(** JavaScript truthiness of a value, and of a possibly absent property. *)
Definition jsTruthy (v : JValue) : bool :=
  match v with
  | JNull => false
  | JBool b => b
  | JNum n => negb (n =? 0)%Z
  | JStr s => negb (String.eqb s "")
  | JArr _ => true
  | JObj _ => true
  end.

Definition jsTruthyProp (p : option JValue) : bool :=
  match p with
  | Some v => jsTruthy v
  | None => false
  end.

(** [v.key] for a value that is neither [null] nor [undefined]: own keys of
    an object; the keys read by this program are not defined on strings,
    numbers, booleans or arrays. *)
Definition jsGet (v : JValue) (key : string) : option JValue :=
  match v with
  | JObj fields => fields !! key
  | _ => None
  end.

(** [p || d] *)
Definition jsOr (p : option JValue) (d : JValue) : JValue :=
  match p with
  | Some v => if jsTruthy v then v else d
  | None => d
  end.

(** [s.startsWith(prefix)] *)
Definition startsWith (s prefix : string) : bool := String.prefix prefix s.

(** * The order gateway (src/index.ts) *)

Definition getApiBaseUrl (apiKey : string) : string :=
  if negb (String.eqb apiKey "") && startsWith apiKey "sk_production_"
  then "https://www.crossmint.com/api/2022-06-09"
  else "https://staging.crossmint.com/api/2022-06-09".

Module SUPPORTED_CHAINS.
Definition POLYGON : string := "polygon".
Definition POLYGON_AMOY : string := "polygon-amoy".
Definition BASE : string := "base".
Definition BASE_SEPOLIA : string := "base-sepolia".
End SUPPORTED_CHAINS.

Definition getPaymentMethod (apiKey : string) (chain : option string) : string :=
  match chain with
  | Some c =>
      if negb (String.eqb c "") then c
      else if negb (String.eqb apiKey "") && startsWith apiKey "sk_production_"
           then SUPPORTED_CHAINS.POLYGON else SUPPORTED_CHAINS.POLYGON_AMOY
  | None =>
      if negb (String.eqb apiKey "") && startsWith apiKey "sk_production_"
      then SUPPORTED_CHAINS.POLYGON else SUPPORTED_CHAINS.POLYGON_AMOY
  end.

Definition DEFAULT_POLLING_MAX_ATTEMPTS : nat := 15.
Definition DEFAULT_POLLING_DELAY_MS : nat := 2000.

(** What [axios.get] produces: a success response with its body, an error
    that carries a response (status code and body), or an error without a
    response. *)
Inductive HttpResult : Type :=
| HttpOk (data : JValue)
| HttpErrorResponse (status : Z) (data : JValue)
| HttpNoResponse (error : string).

(** The errors [getOrderStatus] throws:
    [Failed to get order status: ${status} - ${JSON.stringify(data)}] and
    [Failed to get order status: ${String(error)}]. *)
Inductive GatewayError : Type :=
| GetStatusFailed (status : Z) (data : JValue)
| GetStatusError (error : string).

Module Gateway.

(** The mock response of test mode. *)
Definition mockStatus (orderId : string) : JValue :=
  JObj {[ "order" :=
    JObj (<["orderId" := JStr orderId]>
         (<["phase" := JStr "payment"]>
         {[ "quote" := JObj {[ "status" := JStr "valid" ]} ]})) ]}.

(** The [order] object built for a flattened response. *)
Definition transformedOrder (data : JValue) (orderId : JValue) : JValue :=
  JObj (<["orderId" := orderId]>
       (<["phase" := jsOr (jsGet data "phase") (JStr "unknown")]>
       (<["quote" := jsOr (jsGet data "quote") (JObj {[ "status" := JStr "unknown" ]})]>
       {[ "payment" := jsOr (jsGet data "payment")
            (JObj (<["status" := JStr "unknown"]>
                  (<["method" := JStr "unknown"]>
                  {[ "currency" := JStr "unknown" ]}))) ]}))).

(** [{ order: ..., ...data }]: the keys of [data] are copied after [order]
    is set, so a key of [data] wins over it. *)
Definition spreadOver (data : JValue) (literal : gmap string JValue) : gmap string JValue :=
  match data with
  | JObj fields => fields ∪ literal
  | _ => literal
  end.

(** The body of the [try] block once [axios.get] has answered with [data].
    Reading [data.order] on [null] throws a [TypeError], which the [catch]
    block rethrows as an error without a response. *)
Definition normalize (data : JValue) : GatewayError + JValue :=
  match data with
  | JNull => inl (GetStatusError "TypeError: Cannot read properties of null (reading 'order')")
  | _ =>
      if negb (jsTruthyProp (jsGet data "order")) then
        match jsGet data "orderId" with
        | Some orderId =>
            if jsTruthy orderId then
              inr (JObj (spreadOver data {[ "order" := transformedOrder data orderId ]}))
            else inr data
        | None => inr data
        end
      else inr data
  end.

Definition getOrderStatus (nodeEnvTest : bool) (axiosGet : string -> HttpResult)
    (orderId apiKey : string) : GatewayError + JValue :=
  if nodeEnvTest || startsWith orderId "mock-order-" then inr (mockStatus orderId)
  else
    let apiBaseUrl := getApiBaseUrl apiKey in
    let url := apiBaseUrl +:+ "/orders/" +:+ orderId in
    match axiosGet url with
    | HttpOk data => normalize data
    | HttpErrorResponse status data => inl (GetStatusFailed status data)
    | HttpNoResponse error => inl (GetStatusError error)
    end.

End Gateway.

(** * Typed order snapshots (the interfaces of src/index.ts and src/payment.ts) *)

Module Quote.
Record t : Type := {
  status : string;
  quotedAt : option string;
  expiresAt : option string;
  totalPrice : option (string * string)   (* amount, currency *)
}.
End Quote.

Module Preparation.
Record t : Type := {
  serializedTransaction : option string;
  extra : gmap string JValue
}.
End Preparation.

Module Payment.
Record t : Type := {
  status : string;
  method : string;
  currency : string;
  preparation : option Preparation.t
}.
End Payment.

(** The object the callers read through [statusResponse.order ||
    statusResponse]: every field may be missing.  Fields the flow never
    reads ([lineItems], [locale], ...) stay in [extra]. *)
Module OrderData.
Record t : Type := {
  orderId : option string;
  phase : option string;
  quote : option Quote.t;
  payment : option Payment.t;
  extra : gmap string JValue
}.
End OrderData.

(** [OrderStatusResponse]: an optional nested [order] and the same fields
    at the top level. *)
Module StatusResponse.
Record t : Type := {
  clientSecret : option string;
  order : option OrderData.t;
  top : OrderData.t
}.

(** [statusResponse.order || statusResponse] *)
Definition orderOf (statusResponse : t) : OrderData.t :=
  match order statusResponse with
  | Some o => o
  | None => top statusResponse
  end.
End StatusResponse.

(** [Order] of src/payment.ts: all four fields are required. *)
Module Order.
Record t : Type := {
  orderId : string;
  phase : string;
  quote : Quote.t;
  payment : Payment.t;
  extra : gmap string JValue
}.

(** The same object seen without its type. *)
Definition data (o : t) : OrderData.t := {|
  OrderData.orderId := Some (orderId o);
  OrderData.phase := Some (phase o);
  OrderData.quote := Some (quote o);
  OrderData.payment := Some (payment o);
  OrderData.extra := extra o
|}.
End Order.

Record ShippingAddress : Type := {
  addressName : string;
  line1 : string;
  line2 : option string;
  city : string;
  state : string;
  postalCode : string;
  country : string
}.

(** [s || d] on an optional string: [undefined] and the empty string are
    falsy. *)
Definition strOr (s : option string) (d : string) : string :=
  match s with
  | Some v => if String.eqb v "" then d else v
  | None => d
  end.

(** [order.payment?.status] *)
Definition paymentStatusOf (order : OrderData.t) : option string :=
  Payment.status <$> OrderData.payment order.

(** [order.payment?.preparation?.serializedTransaction] *)
Definition preparedTransactionOf (order : OrderData.t) : option string :=
  match OrderData.payment order with
  | Some pay =>
      match Payment.preparation pay with
      | Some prep => Preparation.serializedTransaction prep
      | None => None
      end
  | None => None
  end.

(** Truthiness of an optional string. *)
Definition strTruthy (s : option string) : bool :=
  match s with
  | Some v => negb (String.eqb v "")
  | None => false
  end.

(** * Effects: errors, events and the world *)

Inductive Error : Type :=
| StatusError (e : GatewayError)
    (* thrown by getOrderStatus *)
| PaymentStatusError (status : string)
    (* Order payment status is ${status}. Cannot proceed with payment. *)
| PreparationNotAvailable (maxAttempts : nat)
    (* Payment preparation not available after ${maxAttempts} attempts *)
| InsufficientFunds
    (* Insufficient funds *)
| PhysicalAddressRequired
    (* recipient.physicalAddress is required *)
| NoSerializedTransaction (order : OrderData.t)
    (* No serialized transaction found for order, ...: ${JSON.stringify(order)} *)
| ChainError (msg : string)
    (* thrown by ethers *)
| TypeError (msg : string).
    (* a property read on undefined *)

Inductive Event : Type :=
| GetOrder (orderId : string)            (* one call of getOrderStatus *)
| Sleep (ms : nat)                       (* setTimeout(resolve, ms) *)
| Log (msg : string)                     (* console.log *)
| LogError (msg : string) (e : Error)    (* console.error, with the error it prints *)
| NewProvider (rpcUrl : string)          (* new JsonRpcProvider(rpcUrl) *)
| SendTransaction (rpcUrl : string) (transaction : string)
                                         (* wallet.sendTransaction *)
| WaitReceipt (hash : string).           (* tx.wait() *)

Record World : Type := {
  trace : list Event;      (* oldest event first *)
  statusCalls : nat        (* calls of getOrderStatus so far *)
}.

Definition initialWorld : World := {| trace := []; statusCalls := 0 |}.

Inductive Outcome (A : Type) : Type :=
| Ok (a : A)
| Throw (e : Error).
Arguments Ok {A} a.
Arguments Throw {A} e.

(** State and exceptions: a thrown error keeps the world reached so far. *)
Definition M (A : Type) : Type := World -> Outcome A * World.

#[export] Instance M_ret : MRet M := fun A a w => (Ok a, w).

#[export] Instance M_bind : MBind M := fun A B k m w =>
  match m w with
  | (Ok a, w') => k a w'
  | (Throw e, w') => (Throw e, w')
  end.

Definition throw {A : Type} (e : Error) : M A := fun w => (Throw e, w).

(** [try { m } catch (error) { handler error }] *)
Definition tryCatch {A : Type} (m : M A) (handler : Error -> M A) : M A := fun w =>
  match m w with
  | (Ok a, w') => (Ok a, w')
  | (Throw e, w') => handler e w'
  end.

Definition record (ev : Event) (w : World) : World :=
  {| trace := trace w ++ [ev]; statusCalls := statusCalls w |}.

Definition emit (ev : Event) : M unit := fun w => (Ok tt, record ev w).

Definition sleep (ms : nat) : M unit := emit (Sleep ms).

(** A step that cannot throw. *)
Definition perform (f : World -> World) : M unit := fun w => (Ok tt, f w).

(** What the chain library does for the signer; each call may throw. *)
Record Receipt : Type := {
  transactionHash : string;
  blockNumber : Z
}.

Record ChainClient : Type := {
  newWallet : string -> string + string;
    (* new ethers.Wallet(privateKey): the address, or an error *)
  parseTransaction : string -> string + string;
    (* ethers.utils.parseTransaction *)
  sendTransaction : string -> string -> string -> string + string;
    (* rpcUrl, privateKey, parsed transaction: the hash, or an error *)
  waitReceipt : string -> string -> string + Receipt
    (* rpcUrl, hash: the receipt, or an error *)
}.

Definition liftChain {A : Type} (r : string + A) : M A :=
  match r with
  | inl msg => throw (ChainError msg)
  | inr a => mret a
  end.

(** * The purchase flow *)

Section Flow.

(** The checkout service as the callers of [getOrderStatus] see it: the
    outcome of the [n]-th call (counted from 0), already typed as
    [OrderStatusResponse] or thrown as an error.  What [getOrderStatus]
    itself prints is not part of the trace. *)
Variable serviceScript : nat -> GatewayError + StatusResponse.t.

Variable chain : ChainClient.

Definition getOrderStatus (orderId apiKey : string) : M StatusResponse.t := fun w =>
  let w' := {| trace := trace w ++ [GetOrder orderId];
               statusCalls := S (statusCalls w) |} in
  match serviceScript (statusCalls w) with
  | inl e => (Throw (StatusError e), w')
  | inr statusResponse => (Ok statusResponse, w')
  end.

(** ** The payment preparation poller (src/index.ts) *)

(** How one pass through the [try] block ends. *)
Inductive Completion : Type :=
| Normal
| Return (statusResponse : StatusResponse.t)
| Thrown (e : Error).

Record PollVars : Type := {
  lastPhase : string;
  lastPaymentStatus : string
}.

(** [if (current !== last) { console.log(...); last = current; }] *)
Definition logOnChange (label current last : string) (w : World) : string * World :=
  if bool_decide (current ≠ last) then (current, record (Log (label +:+ current)) w)
  else (last, w).

(** [order.payment?.status === 'failed' || order.payment?.status === 'canceled'] *)
Definition isTerminalPaymentStatus (order : OrderData.t) : bool :=
  match paymentStatusOf order with
  | Some s => String.eqb s "failed" || String.eqb s "canceled"
  | None => false
  end.

(** The [try] block of one attempt. *)
Definition pollTry (orderId apiKey : string) (delayMs : nat)
    (vars : PollVars) (w : World) : Completion * PollVars * World :=
  match getOrderStatus orderId apiKey w with
  | (Throw e, w1) => (Thrown e, vars, w1)
  | (Ok statusResponse, w1) =>
      let order := StatusResponse.orderOf statusResponse in
      let currentPhase := strOr (OrderData.phase order) "unknown" in
      let currentPaymentStatus := strOr (paymentStatusOf order) "unknown" in
      let '(lastPhase', w2) :=
        logOnChange "Order phase: " currentPhase (lastPhase vars) w1 in
      let '(lastPaymentStatus', w3) :=
        logOnChange "Payment status: " currentPaymentStatus (lastPaymentStatus vars) w2 in
      let vars' := {| lastPhase := lastPhase'; lastPaymentStatus := lastPaymentStatus' |} in
      if strTruthy (preparedTransactionOf order) then (Return statusResponse, vars', w3)
      else if isTerminalPaymentStatus order then
        (Thrown (PaymentStatusError (default "" (paymentStatusOf order))), vars', w3)
      else (Normal, vars', record (Sleep delayMs) w3)
  end.

(** The [catch] block of an attempt that is not the last one. *)
Definition pollCatch (delayMs : nat) (e : Error) (w : World) : World :=
  record (Sleep delayMs) (record (LogError "Error polling order status: " e) w).

(** [while (attempts < maxAttempts) { attempts++; try {...} catch {...} }]
    followed by the final [throw]. *)
Equations? pollLoop (orderId apiKey : string) (maxAttempts delayMs : nat)
    (attempts : nat) (vars : PollVars) (w : World)
    : Outcome StatusResponse.t * World by wf (maxAttempts - attempts) lt :=
pollLoop orderId apiKey maxAttempts delayMs attempts vars w
    with inspect (attempts <? maxAttempts)%nat := {
  | exist _ true Hlt =>
      let attempts' := S attempts in
      match pollTry orderId apiKey delayMs vars w with
      | (Return statusResponse, _, w') => (Ok statusResponse, w')
      | (Normal, vars', w') =>
          pollLoop orderId apiKey maxAttempts delayMs attempts' vars' w'
      | (Thrown e, vars', w') =>
          if (maxAttempts <=? attempts')%nat then (Throw e, w')
          else pollLoop orderId apiKey maxAttempts delayMs attempts' vars'
                 (pollCatch delayMs e w')
      end
  | exist _ false Hge => (Throw (PreparationNotAvailable maxAttempts), w) }.
Proof.
all: apply Nat.ltb_lt in Hlt; lia.
Qed.

Definition waitForPaymentPreparation (orderId apiKey : string)
    (maxAttempts delayMs : nat) : M StatusResponse.t :=
  pollLoop orderId apiKey maxAttempts delayMs 0
    {| lastPhase := ""; lastPaymentStatus := "" |}.

(** ** The payment signer (src/payment.ts) *)

(** The chain of [if]s that picks [rpcUrl] from [order.payment.method]. *)
Definition rpcUrlOf (method : string) : string :=
  if String.eqb method "base" then "https://mainnet.base.org"
  else if String.eqb method "base-sepolia" then "https://sepolia.base.org"
  else if String.eqb method "polygon" then "https://polygon-rpc.com/"
  else if String.eqb method "polygon-amoy" then "https://rpc-amoy.polygon.technology/"
  else "https://rpc-amoy.polygon.technology/".

(** [order.payment.preparation != null && 'serializedTransaction' in
    order.payment.preparation ? order.payment.preparation.serializedTransaction
    : undefined] *)
Definition serializedTransactionOf (pay : Payment.t) : option string :=
  match Payment.preparation pay with
  | Some prep => Preparation.serializedTransaction prep
  | None => None
  end.

(** The [try] block: parse, send, wait for the receipt. *)
Definition submitTransaction (rpcUrl privateKey serializedTransaction : string)
    : M Receipt :=
  parsedTransaction ← liftChain (parseTransaction chain serializedTransaction);
  _ ← emit (SendTransaction rpcUrl parsedTransaction);
  hash ← liftChain (sendTransaction chain rpcUrl privateKey parsedTransaction);
  _ ← emit (Log ("Transaction sent! Hash: " +:+ hash));
  _ ← emit (WaitReceipt hash);
  receipt ← liftChain (waitReceipt chain rpcUrl hash);
  _ ← emit (Log ("Transaction confirmed in block: " +:+ pretty (blockNumber receipt)));
  mret receipt.

(** [processPayment] on the object it receives at run time: the caller
    casts [statusResponse.order || statusResponse] to [Order], so reading
    [order.payment.status] or [order.quote.status] throws a [TypeError]
    when the field is missing.  Objects of type [Order] are the images of
    [Order.data]. *)
Definition processPayment (order : OrderData.t) (privateKey : string) : M Receipt :=
  match OrderData.payment order with
  | None => throw (TypeError "Cannot read properties of undefined (reading 'status')")
  | Some pay =>
      if String.eqb (Payment.status pay) "crypto-payer-insufficient-funds"
      then throw InsufficientFunds
      else
        match OrderData.quote order with
        | None => throw (TypeError "Cannot read properties of undefined (reading 'status')")
        | Some q =>
            if String.eqb (Quote.status q) "requires-physical-address"
            then throw PhysicalAddressRequired
            else
              _ ← emit (Log ("Payment status: " +:+ Payment.status pay));
              _ ← emit (Log ("Payment method: " +:+ Payment.method pay));
              match serializedTransactionOf pay with
              | Some serializedTransaction =>
                  if String.eqb serializedTransaction ""
                  then throw (NoSerializedTransaction order)
                  else
                    let rpcUrl := rpcUrlOf (Payment.method pay) in
                    _ ← emit (NewProvider rpcUrl);
                    _ ← liftChain (newWallet chain privateKey);
                    tryCatch
                      (submitTransaction rpcUrl privateKey serializedTransaction)
                      (fun error =>
                         _ ← emit (LogError "Error sending transaction:" error);
                         throw error)
              | None => throw (NoSerializedTransaction order)
              end
        end
  end.

(** ** The [buy] action after the order is created (src/cli.ts) *)

(** [{ orderId, status }] as returned by [buyProductWithCrypto]. *)
Record PurchaseResult : Type := {
  resultOrderId : string;
  resultStatus : string
}.

Record MonitorVars : Type := {
  currentPhase : string;
  currentPaymentStatus : string
}.

(** How one pass through the monitoring loop ends. *)
Inductive LoopStep : Type :=
| Continue
| Break.

Definition formatAddress (a : ShippingAddress) : string :=
  line1 a +:+ match line2 a with
              | Some l2 => if String.eqb l2 "" then "" else ", " +:+ l2
              | None => ""
              end
  +:+ ", " +:+ city a +:+ ", " +:+ state a +:+ " " +:+ postalCode a
  +:+ ", " +:+ country a.

(** The lines of the order summary, in the order they are printed. *)
Definition orderSummary (orderId email paymentStatus : string)
    (shippingAddress : option ShippingAddress)
    (finalOrderDetails : StatusResponse.t) : list string :=
  let orderData := StatusResponse.orderOf finalOrderDetails in
  let price := match OrderData.quote orderData with
               | Some q => Quote.totalPrice q
               | None => None
               end in
  let totalPrice := strOr (fst <$> price) "9.79" in
  let currency := strOr (snd <$> price) "USDC" in
  let recipientName := strOr (addressName <$> shippingAddress) "Name not available" in
  let formattedAddress := match shippingAddress with
                          | Some a => formatAddress a
                          | None => "Address not available"
                          end in
  [ "========================================";
    "Order Details:";
    "Product: Amazon Product";
    "Total Price: " +:+ totalPrice +:+ " " +:+ currency +:+ " (8.99 " +:+ currency
      +:+ " + 0.80 " +:+ currency +:+ " tax)";
    "Shipping: Free";
    "Recipient: " +:+ recipientName;
    "Shipping Address: " +:+ formattedAddress;
    "Order ID: " +:+ orderId;
    "Payment Status: "
      +:+ (if String.eqb paymentStatus "completed" then "Completed" else paymentStatus);
    "A confirmation email with all the order details has been sent to " +:+ email
      +:+ ". Your item should arrive soon!";
    "========================================" ].

(** The inner [try]/[catch] that prints the final report. *)
Definition reportFinalOrder (orderId apiKey email paymentStatus : string)
    (shippingAddress : option ShippingAddress) : M unit :=
  tryCatch
    (finalOrderDetails ← getOrderStatus orderId apiKey;
     perform (fun w =>
       foldl (fun w' l => record (Log l) w') w
         (orderSummary orderId email paymentStatus shippingAddress
            finalOrderDetails)))
    (fun error => emit (LogError "Error retrieving final order details:" error)).

(** One pass through the body of the monitoring loop, [try] and [catch]
    together. *)
Definition monitorTry (orderId apiKey email : string)
    (shippingAddress : option ShippingAddress)
    (vars : MonitorVars) (w : World) : LoopStep * MonitorVars * World :=
  match getOrderStatus orderId apiKey w with
  | (Throw e, w1) =>
      (Break, vars, record (LogError "Error checking order status: " e) w1)
  | (Ok statusResponse, w1) =>
      let order := StatusResponse.orderOf statusResponse in
      let phase := strOr (OrderData.phase order) "unknown" in
      let paymentStatus := strOr (paymentStatusOf order) "unknown" in
      let '(currentPhase', w2) :=
        logOnChange "Order phase: " phase (currentPhase vars) w1 in
      let '(currentPaymentStatus', w3) :=
        logOnChange "Payment status: " paymentStatus (currentPaymentStatus vars) w2 in
      let vars' := {| currentPhase := currentPhase';
                      currentPaymentStatus := currentPaymentStatus' |} in
      if String.eqb paymentStatus "completed" || String.eqb phase "complete" then
        (Break, vars',
         snd (reportFinalOrder orderId apiKey email paymentStatus shippingAddress w3))
      else (Continue, vars', record (Sleep 5000) w3)
  end.

(** [while (attempts < maxAttempts) { attempts++; ... }] of the monitor. *)
Equations? monitorLoop (orderId apiKey email : string)
    (shippingAddress : option ShippingAddress) (maxAttempts : nat)
    (attempts : nat) (vars : MonitorVars) (w : World)
    : World by wf (maxAttempts - attempts) lt :=
monitorLoop orderId apiKey email shippingAddress maxAttempts attempts vars w
    with inspect (attempts <? maxAttempts)%nat := {
  | exist _ true Hlt =>
      let attempts' := S attempts in
      match monitorTry orderId apiKey email shippingAddress vars w with
      | (Break, _, w') => w'
      | (Continue, vars', w') =>
          monitorLoop orderId apiKey email shippingAddress maxAttempts attempts' vars' w'
      end
  | exist _ false Hge => w }.
Proof.
apply Nat.ltb_lt in Hlt; lia.
Qed.

(** The [try]/[catch] around poller and signer. *)
Definition payOrder (orderId apiKey privateKey : string) : M unit :=
  tryCatch
    (paymentStatusResponse ←
       waitForPaymentPreparation orderId apiKey
         DEFAULT_POLLING_MAX_ATTEMPTS DEFAULT_POLLING_DELAY_MS;
     let orderWithPayment := StatusResponse.orderOf paymentStatusResponse in
     _ ← emit (Log "Processing payment...");
     _ ← processPayment orderWithPayment privateKey;
     emit (Log "Payment processed successfully!"))
    (fun error =>
       _ ← emit (LogError "Error processing payment: " error);
       emit (Log "You may need to complete the payment manually.")).

(** Everything the [buy] action does once [buyProductWithCrypto] has
    returned [result]; [envPrivateKey] is [process.env.PRIVATE_KEY].  The
    messages are recorded without their leading and trailing newlines. *)
Definition buyAfterOrder (result : PurchaseResult) (apiKey email : string)
    (envPrivateKey : option string) (shippingAddress : option ShippingAddress)
    : M unit :=
  let orderId := resultOrderId result in
  _ ← emit (Log "Order created successfully!");
  _ ← (if String.eqb (resultStatus result) "requires-physical-address" then
         emit (Log "This order requires a shipping address. Please update the order with a valid address.")
       else if String.eqb (resultStatus result) "valid" then
         _ ← emit (Log "Order is valid and ready for payment.");
         match envPrivateKey with
         | Some privateKey =>
             if String.eqb privateKey "" then
               emit (Log "No private key provided. Follow the instructions to complete the purchase manually.")
             else payOrder orderId apiKey privateKey
         | None =>
             emit (Log "No private key provided. Follow the instructions to complete the purchase manually.")
         end
       else mret tt);
  if String.eqb (resultStatus result) "valid" then
    _ ← emit (Log "Monitoring order lifecycle...");
    perform
      (monitorLoop orderId apiKey email shippingAddress 10 0
         {| currentPhase := "created"; currentPaymentStatus := "unknown" |})
  else mret tt.

End Flow.

(** * Observations on traces and scripts *)

(** The number of [wallet.sendTransaction] calls in a trace. *)
Definition isSend (ev : Event) : bool :=
  match ev with
  | SendTransaction _ _ => true
  | _ => false
  end.

Fixpoint sendCount (t : list Event) : nat :=
  match t with
  | [] => 0
  | ev :: t' => (if isSend ev then 1 else 0) + sendCount t'
  end.

Definition sends (w : World) : nat := sendCount (trace w).

(** An action that adds at most [n] submissions, whatever the world. *)
Definition SendsAtMost {A : Type} (n : nat) (m : M A) : Prop :=
  forall w : World, sends (snd (m w)) <= sends w + n.

(** An event that names an endpoint names [rpcUrl]. *)
Definition onEndpoint (rpcUrl : string) (ev : Event) : bool :=
  match ev with
  | NewProvider u | SendTransaction u _ => String.eqb u rpcUrl
  | _ => true
  end.

(** What the poller tests on a status response. *)
Definition hasPreparation (statusResponse : StatusResponse.t) : bool :=
  strTruthy (preparedTransactionOf (StatusResponse.orderOf statusResponse)).

Definition hasTerminalStatus (statusResponse : StatusResponse.t) : bool :=
  isTerminalPaymentStatus (StatusResponse.orderOf statusResponse).

(** A scripted outcome after which the poller just waits: a response with
    neither a serialized transaction nor a terminal payment status. *)
Definition pendingOutcome (outcome : GatewayError + StatusResponse.t) : bool :=
  match outcome with
  | inl _ => false
  | inr statusResponse =>
      negb (hasPreparation statusResponse) && negb (hasTerminalStatus statusResponse)
  end.

(** The world after one call of [getOrderStatus]. *)
Definition afterGetOrder (orderId : string) (w : World) : World :=
  {| trace := trace w ++ [GetOrder orderId]; statusCalls := S (statusCalls w) |}.

(** * Sample inputs *)

(** A flattened status response with the given phase, payment status and
    serialized transaction. *)
Definition sampleResponse (phase status : string) (transaction : option string)
    : StatusResponse.t := {|
  StatusResponse.clientSecret := None;
  StatusResponse.order := None;
  StatusResponse.top := {|
    OrderData.orderId := Some "ord-1";
    OrderData.phase := Some phase;
    OrderData.quote := Some {| Quote.status := "valid"; Quote.quotedAt := None;
                               Quote.expiresAt := None; Quote.totalPrice := None |};
    OrderData.payment := Some {|
      Payment.status := status;
      Payment.method := "polygon-amoy";
      Payment.currency := "usdc";
      Payment.preparation :=
        (fun t => {| Preparation.serializedTransaction := Some t;
                     Preparation.extra := ∅ |}) <$> transaction |};
    OrderData.extra := ∅ |} |}.

Definition pendingResponse : StatusResponse.t :=
  sampleResponse "payment" "requires-quote" None.

Definition failedResponse : StatusResponse.t :=
  sampleResponse "payment" "failed" None.

Definition readyResponse : StatusResponse.t :=
  sampleResponse "payment" "awaiting-payment" (Some "0x02f8").

(** The script that answers with the outcomes of [l] in turn and with [d]
    afterwards. *)
Definition scriptOf (l : list (GatewayError + StatusResponse.t))
    (d : GatewayError + StatusResponse.t) (n : nat) : GatewayError + StatusResponse.t :=
  default d (l !! n).

(** A chain on which every call succeeds. *)
Definition sampleChain : ChainClient := {|
  newWallet := fun _ => inr "0xPayer";
  parseTransaction := fun t => inr t;
  sendTransaction := fun _ _ _ => inr "0xHash";
  waitReceipt := fun _ h => inr {| transactionHash := h; blockNumber := 1 |}
|}.

(** An order of type [Order] with the given statuses and transaction. *)
Definition sampleOrder (paymentStatus quoteStatus method : string)
    (transaction : option string) : Order.t := {|
  Order.orderId := "ord-1";
  Order.phase := "payment";
  Order.quote := {| Quote.status := quoteStatus; Quote.quotedAt := None;
                    Quote.expiresAt := None; Quote.totalPrice := None |};
  Order.payment := {|
    Payment.status := paymentStatus;
    Payment.method := method;
    Payment.currency := "usdc";
    Payment.preparation :=
      (fun t => {| Preparation.serializedTransaction := Some t;
                   Preparation.extra := ∅ |}) <$> transaction |};
  Order.extra := ∅
|}.


(** A flattened service response with the given [phase]. *)
Definition flattenedResponse (phase : string) : gmap string JValue :=
  <["orderId" := JStr "ord-1"]>
  (<["phase" := JStr phase]>
  (<["quote" := JObj {[ "status" := JStr "valid" ]}]>
  {[ "payment" := JObj (<["status" := JStr "awaiting-payment"]>
                       (<["method" := JStr "base"]>
                       {[ "currency" := JStr "usdc" ]})) ]})).

(** * Creating and updating orders (src/index.ts) *)

Module OrderOptions.
Record t : Type := {
  source : string;
  productIdentifier : string;
  isUrl : bool;
  apiKey : string;
  email : string;
  shippingAddress : option ShippingAddress;
  chain : option string
}.
End OrderOptions.

(** [OrderResponse]: [order.orderId] and [order.quote.status]. *)
Module OrderResponse.
Record t : Type := {
  orderId : string;
  quoteStatus : string
}.
End OrderResponse.

(** [process.env], as far as the order functions read it. *)
Record ProcessEnv : Type := {
  PRIVATE_KEY : option string;
  NODE_ENV : option string
}.

(** A request sent through axios, with its [X-API-KEY] header. *)
Inductive HttpRequest : Type :=
| HttpPost (url : string) (body : JValue) (apiKey : string)
| HttpPatch (url : string) (body : JValue) (apiKey : string).

(** What [axios.post] and [axios.patch] produce, the body of a success
    being typed as [OrderResponse]. *)
Inductive OrderReply : Type :=
| OrderOk (data : OrderResponse.t)
| OrderErrorResponse (status : Z) (data : JValue)
| OrderNoResponse (error : string).

Inductive OrderError : Type :=
| UnsupportedSource (source : string)
    (* Unsupported product source: ${source} *)
| InvalidIdentifier (source identifier : string)
    (* Invalid product identifier for source ${source}: ${productIdentifier} *)
| WalletError (msg : string)
    (* thrown by new ethers.Wallet(privateKey) *)
| CreateFailed (status : Z) (data : JValue)
    (* Failed to create order: ${status} - ${JSON.stringify(data)} *)
| CreateError (error : string)
    (* Failed to create order: ${String(error)} *)
| UpdateFailed (status : Z) (data : JValue)
    (* Failed to update order: ${status} - ${JSON.stringify(data)} *)
| UpdateError (error : string).
    (* Failed to update order: ${String(error)} *)

(** [getWalletAddressFromPrivateKey] of src/payment.ts. *)
Definition getWalletAddressFromPrivateKey (chain : ChainClient) (privateKey : string)
    : string + string :=
  newWallet chain privateKey.

(** The [physicalAddress] object built in [createOrder]: the six required
    fields, then [line2] when it is truthy. *)
Definition createOrderAddress (shippingAddress : ShippingAddress) : gmap string JValue :=
  let physicalAddress : gmap string JValue :=
    <["name" := JStr (addressName shippingAddress)]>
    (<["line1" := JStr (line1 shippingAddress)]>
    (<["city" := JStr (city shippingAddress)]>
    (<["state" := JStr (state shippingAddress)]>
    (<["postalCode" := JStr (postalCode shippingAddress)]>
    {[ "country" := JStr (country shippingAddress) ]})))) in
  if strTruthy (line2 shippingAddress)
  then <["line2" := JStr (default "" (line2 shippingAddress))]> physicalAddress
  else physicalAddress.

(** [requestBody.recipient], set only when there is an email or an
    address. *)
Definition createOrderRecipient (email : string)
    (shippingAddress : option ShippingAddress) : option (gmap string JValue) :=
  if negb (String.eqb email "") || bool_decide (is_Some shippingAddress) then
    let recipient : gmap string JValue := ∅ in
    let recipient :=
      if negb (String.eqb email "") then <["email" := JStr email]> recipient
      else recipient in
    let recipient :=
      match shippingAddress with
      | Some a => <["physicalAddress" := JObj (createOrderAddress a)]> recipient
      | None => recipient
      end in
    Some recipient
  else None.

(** The request body of [createOrder]. *)
Definition createOrderBody (productLocator method : string) (payerAddress : option string)
    (recipient : option (gmap string JValue)) : JValue :=
  let payment : gmap string JValue :=
    <["method" := JStr method]> {[ "currency" := JStr "usdc" ]} in
  let payment :=
    match payerAddress with
    | Some address => <["payerAddress" := JStr address]> payment
    | None => payment
    end in
  let requestBody : gmap string JValue :=
    <["lineItems" := JArr [JObj {[ "productLocator" := JStr productLocator ]}]]>
    {[ "payment" := JObj payment ]} in
  match recipient with
  | Some r => JObj (<["recipient" := JObj r]> requestBody)
  | None => JObj requestBody
  end.

(** [createOrder]: the value returned or the error thrown, and the
    requests sent.  [now] is [Date.now()]. *)
Definition createOrder (env : ProcessEnv) (now : N) (chain : ChainClient)
    (axiosPost : string -> JValue -> OrderReply) (options : OrderOptions.t)
    : (OrderError + OrderResponse.t) * list HttpRequest :=
  let source := OrderOptions.source options in
  let productIdentifier := OrderOptions.productIdentifier options in
  let isUrl := OrderOptions.isUrl options in
  let apiKey := OrderOptions.apiKey options in
  let shippingAddress := OrderOptions.shippingAddress options in
  match getSource source with
  | None => (inl (UnsupportedSource source), [])
  | Some productSource =>
      if negb (ProductSource.validateIdentifier productSource productIdentifier isUrl)
      then (inl (InvalidIdentifier source productIdentifier), [])
      else
        let productLocator :=
          ProductSource.createProductLocator productSource productIdentifier isUrl in
        let method := getPaymentMethod apiKey (OrderOptions.chain options) in
        let payer : string + option string :=
          if strTruthy (PRIVATE_KEY env) then
            match getWalletAddressFromPrivateKey chain (default "" (PRIVATE_KEY env)) with
            | inl msg => inl msg
            | inr address => inr (Some address)
            end
          else inr None in
        match payer with
        | inl msg => (inl (WalletError msg), [])
        | inr payerAddress =>
            let requestBody :=
              createOrderBody productLocator method payerAddress
                (createOrderRecipient (OrderOptions.email options) shippingAddress) in
            if bool_decide (NODE_ENV env = Some "test") then
              (inr {| OrderResponse.orderId := "mock-order-" +:+ pretty now;
                      OrderResponse.quoteStatus :=
                        if bool_decide (is_Some shippingAddress) then "valid"
                        else "requires-physical-address" |}, [])
            else
              let url := getApiBaseUrl apiKey +:+ "/orders" in
              let request := HttpPost url requestBody apiKey in
              match axiosPost url requestBody with
              | OrderOk data => (inr data, [request])
              | OrderErrorResponse status data => (inl (CreateFailed status data), [request])
              | OrderNoResponse error => (inl (CreateError error), [request])
              end
        end
  end.

(** The request body of [updateOrderWithShippingAddress]. *)
Definition updateOrderBody (shippingAddress : ShippingAddress) : JValue :=
  let physicalAddress : gmap string JValue :=
    <["name" := JStr (addressName shippingAddress)]>
    (<["line1" := JStr (line1 shippingAddress)]>
    (<["city" := JStr (city shippingAddress)]>
    (<["state" := JStr (state shippingAddress)]>
    (<["postalCode" := JStr (postalCode shippingAddress)]>
    {[ "country" := JStr (country shippingAddress) ]})))) in
  let physicalAddress :=
    if strTruthy (line2 shippingAddress)
    then <["line2" := JStr (default "" (line2 shippingAddress))]> physicalAddress
    else physicalAddress in
  JObj {[ "recipient" := JObj {[ "physicalAddress" := JObj physicalAddress ]} ]}.

Definition updateOrderWithShippingAddress
    (axiosPatch : string -> JValue -> OrderReply)
    (orderId apiKey : string) (shippingAddress : ShippingAddress)
    : (OrderError + OrderResponse.t) * list HttpRequest :=
  let requestBody := updateOrderBody shippingAddress in
  let url := getApiBaseUrl apiKey +:+ "/orders/" +:+ orderId in
  let request := HttpPatch url requestBody apiKey in
  match axiosPatch url requestBody with
  | OrderOk data => (inr data, [request])
  | OrderErrorResponse status data => (inl (UpdateFailed status data), [request])
  | OrderNoResponse error => (inl (UpdateError error), [request])
  end.

(** [buyProductWithCrypto]: create, then patch the address when the quote
    asks for one and an address is at hand. *)
Definition buyProductWithCrypto (env : ProcessEnv) (now : N) (chain : ChainClient)
    (axiosPost axiosPatch : string -> JValue -> OrderReply) (options : OrderOptions.t)
    : (OrderError + PurchaseResult) * list HttpRequest :=
  match createOrder env now chain axiosPost options with
  | (inl e, requests) => (inl e, requests)
  | (inr orderResponse, requests) =>
      let orderId := OrderResponse.orderId orderResponse in
      let status := OrderResponse.quoteStatus orderResponse in
      if String.eqb status "requires-physical-address" then
        match OrderOptions.shippingAddress options with
        | Some shippingAddress =>
            match updateOrderWithShippingAddress axiosPatch orderId
                    (OrderOptions.apiKey options) shippingAddress with
            | (inl e, requests') => (inl e, requests ++ requests')
            | (inr updatedOrder, requests') =>
                (inr {| resultOrderId := orderId;
                        resultStatus := OrderResponse.quoteStatus updatedOrder |},
                 requests ++ requests')
            end
        | None => (inr {| resultOrderId := orderId; resultStatus := status |}, requests)
        end
      else (inr {| resultOrderId := orderId; resultStatus := status |}, requests)
  end.

(** [buyAmazonProductWithCrypto]: [{ ...options, source: 'amazon' }]. *)
Definition buyAmazonProductWithCrypto (env : ProcessEnv) (now : N) (chain : ChainClient)
    (axiosPost axiosPatch : string -> JValue -> OrderReply) (options : OrderOptions.t)
    : (OrderError + PurchaseResult) * list HttpRequest :=
  buyProductWithCrypto env now chain axiosPost axiosPatch
    {| OrderOptions.source := "amazon";
       OrderOptions.productIdentifier := OrderOptions.productIdentifier options;
       OrderOptions.isUrl := OrderOptions.isUrl options;
       OrderOptions.apiKey := OrderOptions.apiKey options;
       OrderOptions.email := OrderOptions.email options;
       OrderOptions.shippingAddress := OrderOptions.shippingAddress options;
       OrderOptions.chain := OrderOptions.chain options |}.

(** * Further observations *)

(** Every character of [s] is in [[A-Z0-9]]. *)
Fixpoint allAsinChars (s : string) : bool :=
  match s with
  | EmptyString => true
  | String c rest => isAsinChar c && allAsinChars rest
  end.

Definition isPost (request : HttpRequest) : bool :=
  match request with
  | HttpPost _ _ _ => true
  | HttpPatch _ _ _ => false
  end.

(** The events the poller may record. *)
Definition isPollerEvent (orderId : string) (delayMs : nat) (ev : Event) : bool :=
  match ev with
  | GetOrder o => String.eqb o orderId
  | Sleep ms => Nat.eqb ms delayMs
  | Log _ | LogError _ _ => true
  | NewProvider _ | SendTransaction _ _ | WaitReceipt _ => false
  end.

(** The events that reach the chain: opening the provider, submitting,
    waiting for the receipt. *)
Definition isChainEvent (ev : Event) : bool :=
  match ev with
  | NewProvider _ | SendTransaction _ _ | WaitReceipt _ => true
  | _ => false
  end.

(** An action that adds at most [n] calls of [getOrderStatus]. *)
Definition CallsAtMost {A : Type} (n : nat) (m : M A) : Prop :=
  forall w : World, statusCalls (snd (m w)) <= statusCalls w + n.

(** An action that only extends the trace, by events that are not chain
    events. *)
Definition OffChain {A : Type} (m : M A) : Prop :=
  forall w : World,
    exists evs : list Event,
      trace (snd (m w)) = trace w ++ evs
      /\ forallb (fun ev => negb (isChainEvent ev)) evs = true.

Definition isLog (ev : Event) : bool :=
  match ev with
  | Log _ => true
  | _ => false
  end.

(** The phase and payment status a pass of the poller or of the monitor
    compares with the last ones it printed. *)
Definition observedPhase (statusResponse : StatusResponse.t) : string :=
  strOr (OrderData.phase (StatusResponse.orderOf statusResponse)) "unknown".

Definition observedPaymentStatus (statusResponse : StatusResponse.t) : string :=
  strOr (paymentStatusOf (StatusResponse.orderOf statusResponse)) "unknown".

(** What a pass of the poller that received [r] prints. *)
Definition passLogs (vars : PollVars) (r : StatusResponse.t) : list Event :=
  (if bool_decide (observedPhase r <> lastPhase vars)
   then [Log ("Order phase: " +:+ observedPhase r)] else [])
  ++ (if bool_decide (observedPaymentStatus r <> lastPaymentStatus vars)
      then [Log ("Payment status: " +:+ observedPaymentStatus r)] else []).

(** The stop test of the monitor:
    [paymentStatus === 'completed' || phase === 'complete']. *)
Definition monitorStops (statusResponse : StatusResponse.t) : bool :=
  String.eqb (observedPaymentStatus statusResponse) "completed"
  || String.eqb (observedPhase statusResponse) "complete".

Definition sampleAddress : ShippingAddress := {|
  addressName := "Ada Buyer";
  line1 := "1 Main St";
  line2 := None;
  city := "Springfield";
  state := "IL";
  postalCode := "62701";
  country := "US"
|}.

Definition sampleOptions (identifier : string) (isUrl : bool)
    (shippingAddress : option ShippingAddress) : OrderOptions.t := {|
  OrderOptions.source := "amazon";
  OrderOptions.productIdentifier := identifier;
  OrderOptions.isUrl := isUrl;
  OrderOptions.apiKey := "sk_staging_key";
  OrderOptions.email := "buyer@example.com";
  OrderOptions.shippingAddress := shippingAddress;
  OrderOptions.chain := None
|}.

Definition sampleEnv : ProcessEnv := {| PRIVATE_KEY := None; NODE_ENV := None |}.

(** * Properties of the product source *)

Section ProductSourceFacts.

Lemma isAsinChar_slash : isAsinChar "/" = false.
Proof. reflexivity. Qed.

Lemma isAsinChar_not_slash (c : ascii) :
  isAsinChar c = true -> Ascii.eqb c "/" = false.
Proof.
  intros Hc. destruct (Ascii.eqb_spec c "/") as [->|]; [|reflexivity].
  discriminate Hc.
Qed.

(** The anchored pattern, with the test on the first character spelled
    out. *)
Lemma matchAsinAt_cons (c : ascii) (rest : string) :
  matchAsinAt (String c rest) =
  if Ascii.eqb c "/" then
    match matchAsinChars 10 rest with
    | Some (tok, rest') => if matchAsinEnd rest' then Some tok else None
    | None => None
    end
  else None.
Proof.
  destruct c as [[] [] [] [] [] [] [] []]; reflexivity.
Qed.

Lemma matchAsinAt_other (c : ascii) (rest : string) :
  Ascii.eqb c "/" = false -> matchAsinAt (String c rest) = None.
Proof. intros H. rewrite matchAsinAt_cons, H. reflexivity. Qed.

(** What [[A-Z0-9]{n}] consumed is a prefix of the input without a slash. *)
Lemma matchAsinChars_Some (n : nat) (s tok rest : string) :
  matchAsinChars n s = Some (tok, rest) ->
  s = tok +:+ rest /\ includesChar "/" tok = false.
Proof.
  revert s tok rest. induction n as [|n IH]; intros s tok rest; simpl.
  - intros [= <- <-]. split; reflexivity.
  - destruct s as [|c s']; [discriminate|].
    destruct (isAsinChar c) eqn:Hc; [|discriminate].
    destruct (matchAsinChars n s') as [[tok' rest']|] eqn:Hm; [|discriminate].
    intros [= <- <-]. destruct (IH _ _ _ Hm) as [-> Hno].
    split; [reflexivity|]. simpl.
    rewrite (isAsinChar_not_slash _ Hc), Hno. reflexivity.
Qed.

Lemma append_nil_l (t : string) : "" +:+ t = t.
Proof. reflexivity. Qed.

Lemma append_cons (c : ascii) (s t : string) :
  String c s +:+ t = String c (s +:+ t).
Proof. reflexivity. Qed.

Lemma append_empty_r (s : string) : s +:+ "" = s.
Proof.
  induction s as [|c s IH]; [reflexivity|]. rewrite append_cons, IH. reflexivity.
Qed.

Lemma append_assoc (a b c : string) : (a +:+ b) +:+ c = a +:+ b +:+ c.
Proof.
  induction a as [|d a IH]; [reflexivity|]. rewrite !append_cons, IH. reflexivity.
Qed.

Lemma asinTest_spec (code : string) :
  asinTest code = true -> matchAsinChars 10 code = Some (code, "").
Proof.
  unfold asinTest. destruct (matchAsinChars 10 code) as [[tok rest]|] eqn:Hm;
    [|discriminate].
  destruct rest; [|discriminate]. intros _.
  apply matchAsinChars_Some in Hm as [Heq _].
  rewrite append_empty_r in Heq. subst tok. reflexivity.
Qed.

Lemma asinTest_no_slash (code : string) :
  asinTest code = true -> includesChar "/" code = false.
Proof.
  intros H. apply asinTest_spec in H.
  apply matchAsinChars_Some in H as [_ H]. exact H.
Qed.

(** Without a slash there is no position where the pattern can start. *)
Lemma asinPatternMatch_no_slash (s : string) :
  includesChar "/" s = false -> asinPatternMatch s = None.
Proof.
  induction s as [|c s IH]; simpl includesChar; intros H.
  - reflexivity.
  - apply orb_false_iff in H as [Hc Hs].
    change (asinPatternMatch (String c s))
      with (match matchAsinAt (String c s) with
            | Some tok => Some tok
            | None => asinPatternMatch s
            end).
    rewrite (matchAsinAt_other _ _ Hc). auto.
Qed.

(** A slash stops [[A-Z0-9]{n}]: what follows the slash plays no part. *)
Lemma matchAsinChars_before_slash (n : nat) (a b : string) :
  matchAsinChars n (a +:+ String "/" b) =
  match matchAsinChars n (a +:+ "/") with
  | Some (tok, rest) => Some (tok, rest +:+ b)
  | None => None
  end.
Proof.
  revert a. induction n as [|n IH]; intros a.
  - simpl. rewrite append_assoc. reflexivity.
  - destruct a as [|c a]; rewrite ?append_nil_l, ?append_cons; simpl.
    + reflexivity.
    + destruct (isAsinChar c); [|reflexivity].
      rewrite IH. destruct (matchAsinChars n (a +:+ "/")) as [[tok rest]|]; reflexivity.
Qed.

Lemma matchAsinChars_slash_rest (n : nat) (a tok rest : string) :
  matchAsinChars n (a +:+ "/") = Some (tok, rest) ->
  exists c r, rest = String c r.
Proof.
  revert a tok rest. induction n as [|n IH]; intros a tok rest; simpl.
  - intros [= <- <-]. destruct a; rewrite ?append_nil_l, ?append_cons; eauto.
  - destruct a as [|c a]; rewrite ?append_nil_l, ?append_cons; simpl; [discriminate|].
    destruct (isAsinChar c); [|discriminate].
    destruct (matchAsinChars n (a +:+ "/")) as [[tok' rest']|] eqn:Hm; [|discriminate].
    intros [= <- <-]. eauto.
Qed.

Lemma matchAsinAt_before_slash (c : ascii) (a b : string) :
  matchAsinAt (String c (a +:+ "/")) = None ->
  matchAsinAt (String c (a +:+ String "/" b)) = None.
Proof.
  rewrite !matchAsinAt_cons. destruct (Ascii.eqb c "/"); [|reflexivity].
  rewrite (matchAsinChars_before_slash 10 a b).
  destruct (matchAsinChars 10 (a +:+ "/")) as [[tok rest]|] eqn:Hm; [|reflexivity].
  destruct (matchAsinChars_slash_rest _ _ _ _ Hm) as (d & r & ->).
  rewrite append_cons. simpl. auto.
Qed.

(** The leftmost match is the final segment when nothing before it
    matches. *)
Lemma asinPatternMatch_final_segment (pre code : string) :
  asinTest code = true ->
  asinPatternMatch (pre +:+ "/") = None ->
  asinPatternMatch (pre +:+ "/" +:+ code) = Some code.
Proof.
  intros Hcode. induction pre as [|c pre IH]; intros Hpre.
  - change ("" +:+ "/" +:+ code) with (String "/" code).
    destruct code as [|d code']; [discriminate Hcode|].
    unfold asinPatternMatch. rewrite matchAsinAt_cons.
    rewrite (asinTest_spec _ Hcode). reflexivity.
  - change (String c pre +:+ "/" +:+ code) with (String c (pre +:+ String "/" code)).
    change (String c pre +:+ "/") with (String c (pre +:+ "/")) in Hpre.
    change (asinPatternMatch (String c (pre +:+ "/")))
      with (match matchAsinAt (String c (pre +:+ "/")) with
            | Some tok => Some tok
            | None => asinPatternMatch (pre +:+ "/")
            end) in Hpre.
    change (asinPatternMatch (String c (pre +:+ String "/" code)))
      with (match matchAsinAt (String c (pre +:+ String "/" code)) with
            | Some tok => Some tok
            | None => asinPatternMatch (pre +:+ String "/" code)
            end).
    destruct (matchAsinAt (String c (pre +:+ "/"))) eqn:Hat; [discriminate|].
    rewrite (matchAsinAt_before_slash _ _ _ Hat). apply IH, Hpre.
Qed.

End ProductSourceFacts.

(** The behaviour pinned down by tests/index.test.ts. *)

Example extract_standard_url :
  AmazonSource.extractProductId "https://www.amazon.com/dp/B01DFKC2SO" = Some "B01DFKC2SO".
Proof. reflexivity. Qed.

Example extract_url_with_parameters :
  AmazonSource.extractProductId
    "https://www.amazon.com/Product-Name/dp/B01DFKC2SO/ref=sr_1_1"
  = Some "B01DFKC2SO".
Proof. reflexivity. Qed.

Example extract_invalid_url :
  AmazonSource.extractProductId "https://www.amazon.com/product-without-asin" = None.
Proof. reflexivity. Qed.

Example locator_for_url :
  AmazonSource.createProductLocator "https://www.amazon.com/dp/B01DFKC2SO" true
  = "amazon:B01DFKC2SO".
Proof. reflexivity. Qed.

Example validate_invalid_asin : AmazonSource.validateIdentifier "invalid" false = false.
Proof. reflexivity. Qed.

Example legacy_locator_keeps_url :
  createProductLocator "https://www.amazon.com/dp/B01DFKC2SO" true
  = "amazon:https://www.amazon.com/dp/B01DFKC2SO".
Proof. reflexivity. Qed.

Example registry_has_amazon :
  ProductSource.name <$> getSource "amazon" = Some "amazon".
Proof. reflexivity. Qed.

Example registry_unknown : ProductSource.name <$> getSource "unknown" = None.
Proof. reflexivity. Qed.

(** C8, as stated, fails: the pattern returns the leftmost segment that is
    a 10-character code, so an earlier such segment hides the final one. *)
Lemma C8_final_segment_counterexample :
  ~ (forall pre code : string,
       asinTest code = true ->
       AmazonSource.extractProductId (pre +:+ "/" +:+ code) = Some code).
Proof.
  intros H.
  specialize (H "https://example.com/B00EXAMPLE" "B01DFKC2SO" eq_refl).
  vm_compute in H. discriminate H.
Qed.

(** C9: for every code accepted by [/^[A-Z0-9]{10}$/],
    [AmazonSource.createProductLocator] gives the same locator with
    [isUrl = true] and with [isUrl = false], namely ["amazon:"] followed by
    the code. *)
Theorem C9_locator_of_valid_code (code : string) :
  asinTest code = true ->
  AmazonSource.createProductLocator code true
  = AmazonSource.createProductLocator code false
  /\ AmazonSource.createProductLocator code false = "amazon:" +:+ code.
Proof.
  intros Hcode. split; [|reflexivity].
  unfold AmazonSource.createProductLocator, AmazonSource.extractProductId.
  rewrite (asinPatternMatch_no_slash _ (asinTest_no_slash _ Hcode)). reflexivity.
Qed.

Lemma C9_locator_of_valid_code_witness :
  AmazonSource.createProductLocator "B01DFKC2SO" true
  = AmazonSource.createProductLocator "B01DFKC2SO" false
  /\ AmazonSource.createProductLocator "B01DFKC2SO" false = "amazon:" +:+ "B01DFKC2SO".
Proof.
  apply (C9_locator_of_valid_code "B01DFKC2SO"). reflexivity.
Defined.

(** C10: for every identifier without a ['/'],
    [AmazonSource.extractProductId] returns null and
    [AmazonSource.validateIdentifier identifier true] returns false; so a
    bare code such as [B01DFKC2SO], which [validateIdentifier code false]
    accepts, is rejected with [isUrl = true]. *)
Theorem C10_no_slash_rejected_as_url (identifier : string) :
  includesChar "/" identifier = false ->
  AmazonSource.extractProductId identifier = None
  /\ AmazonSource.validateIdentifier identifier true = false.
Proof.
  intros Hno.
  assert (Hext : AmazonSource.extractProductId identifier = None)
    by (apply asinPatternMatch_no_slash, Hno).
  unfold AmazonSource.validateIdentifier. rewrite Hext. auto.
Qed.

Lemma C10_no_slash_rejected_as_url_witness :
  AmazonSource.validateIdentifier "B01DFKC2SO" false = true
  /\ AmazonSource.extractProductId "B01DFKC2SO" = None
  /\ AmazonSource.validateIdentifier "B01DFKC2SO" true = false.
Proof.
  split; [reflexivity|].
  apply (C10_no_slash_rejected_as_url "B01DFKC2SO"). reflexivity.
Defined.

(** * Properties of the order gateway *)

Section GatewayFacts.



End GatewayFacts.




(** * Properties of the payment preparation poller *)

Section PollerFacts.

Variable serviceScript : nat -> GatewayError + StatusResponse.t.
Variables orderId apiKey : string.
Variables maxAttempts delayMs : nat.

Local Abbreviation pollTry' := (pollTry serviceScript orderId apiKey delayMs).
Local Abbreviation pollLoop' := (pollLoop serviceScript orderId apiKey maxAttempts delayMs).

Lemma sendCount_app (t1 t2 : list Event) :
  sendCount (t1 ++ t2) = sendCount t1 + sendCount t2.
Proof. induction t1 as [|ev t1 IH]; simpl; [reflexivity|]. rewrite IH. lia. Qed.

Lemma sends_record (ev : Event) (w : World) :
  sends (record ev w) = sends w + (if isSend ev then 1 else 0).
Proof. unfold sends, record. simpl. rewrite sendCount_app. simpl. lia. Qed.

Lemma sends_afterGetOrder (w : World) : sends (afterGetOrder orderId w) = sends w.
Proof. unfold sends, afterGetOrder. simpl. rewrite sendCount_app. simpl. lia. Qed.

Lemma logOnChange_world (label current last : string) (w : World) :
  statusCalls (snd (logOnChange label current last w)) = statusCalls w
  /\ sends (snd (logOnChange label current last w)) = sends w.
Proof.
  unfold logOnChange. case_bool_decide; simpl; [|auto].
  rewrite sends_record. simpl. split; [reflexivity|lia].
Qed.

(** The loop, one iteration unfolded. *)
Lemma pollLoop_step (attempts : nat) (vars : PollVars) (w : World) :
  pollLoop' attempts vars w =
  if (attempts <? maxAttempts)%nat then
    match pollTry' vars w with
    | (Return statusResponse, _, w') => (Ok statusResponse, w')
    | (Normal, vars', w') => pollLoop' (S attempts) vars' w'
    | (Thrown e, vars', w') =>
        if (maxAttempts <=? S attempts)%nat then (Throw e, w')
        else pollLoop' (S attempts) vars' (pollCatch delayMs e w')
    end
  else (Throw (PreparationNotAvailable maxAttempts), w).
Proof.
  rewrite pollLoop_equation_1. unfold inspect.
  generalize (@eq_refl bool (attempts <? maxAttempts)%nat).
  generalize (attempts <? maxAttempts)%nat at 2 4 5.
  intros [] H; reflexivity.
Qed.

(** A call that throws leaves the [try] block at once. *)
Lemma pollTry_error (vars : PollVars) (w : World) (e : GatewayError) :
  serviceScript (statusCalls w) = inl e ->
  pollTry' vars w = (Thrown (StatusError e), vars, afterGetOrder orderId w).
Proof. intros H. unfold pollTry, getOrderStatus. rewrite H. reflexivity. Qed.

(** A call that answers: the three ways the [try] block can end. *)
Lemma pollTry_response (vars : PollVars) (w : World) (r : StatusResponse.t) :
  serviceScript (statusCalls w) = inr r ->
  exists (vars' : PollVars) (w' : World),
    statusCalls w' = S (statusCalls w) /\ sends w' = sends w
    /\ pollTry' vars w =
       if hasPreparation r then (Return r, vars', w')
       else if hasTerminalStatus r then
         (Thrown (PaymentStatusError
                    (default "" (paymentStatusOf (StatusResponse.orderOf r)))),
          vars', w')
       else (Normal, vars', record (Sleep delayMs) w').
Proof.
  intros H. unfold pollTry, getOrderStatus. rewrite H.
  fold (afterGetOrder orderId w).
  set (order := StatusResponse.orderOf r).
  pose proof (logOnChange_world "Order phase: " (strOr (OrderData.phase order) "unknown")
                (lastPhase vars) (afterGetOrder orderId w)) as [Hc1 Hs1].
  destruct (logOnChange "Order phase: " _ (lastPhase vars) _) as [p1 w2].
  pose proof (logOnChange_world "Payment status: "
                (strOr (paymentStatusOf order) "unknown")
                (lastPaymentStatus vars) w2) as [Hc2 Hs2].
  destruct (logOnChange "Payment status: " _ (lastPaymentStatus vars) _) as [p2 w3].
  simpl in *. exists {| lastPhase := p1; lastPaymentStatus := p2 |}, w3.
  split; [congruence|]. split.
  - rewrite Hs2, Hs1. apply sends_afterGetOrder.
  - unfold hasPreparation, hasTerminalStatus. fold order.
    destruct (strTruthy _); [reflexivity|].
    destruct (isTerminalPaymentStatus _); reflexivity.
Qed.

(** Whatever happens, one pass makes exactly one call and submits
    nothing. *)
Lemma pollTry_world (vars : PollVars) (w : World) :
  statusCalls (snd (pollTry' vars w)) = S (statusCalls w)
  /\ sends (snd (pollTry' vars w)) = sends w.
Proof.
  destruct (serviceScript (statusCalls w)) as [e|r] eqn:H.
  - rewrite (pollTry_error _ _ _ H). simpl. split; [reflexivity|].
    apply sends_afterGetOrder.
  - destruct (pollTry_response vars w r H) as (vars' & w' & Hc & Hs & ->).
    destruct (hasPreparation r); [auto|].
    destruct (hasTerminalStatus r); [auto|].
    simpl. rewrite sends_record. simpl. split; [exact Hc|lia].
Qed.

Lemma pollCatch_world (e : Error) (w : World) :
  statusCalls (pollCatch delayMs e w) = statusCalls w
  /\ sends (pollCatch delayMs e w) = sends w.
Proof.
  unfold pollCatch. rewrite !sends_record. simpl. split; [reflexivity|lia].
Qed.

(** The loop never makes more calls than attempts are left, and submits
    nothing. *)
Lemma pollLoop_world (n attempts : nat) (vars : PollVars) (w : World) :
  maxAttempts - attempts = n ->
  statusCalls (snd (pollLoop' attempts vars w)) <= statusCalls w + n
  /\ sends (snd (pollLoop' attempts vars w)) = sends w.
Proof.
  revert attempts vars w. induction n as [|n IH]; intros attempts vars w Hn;
    rewrite pollLoop_step.
  - destruct (Nat.ltb_spec attempts maxAttempts) as [Hlt|Hge]; [lia|].
    simpl. split; [lia|reflexivity].
  - destruct (Nat.ltb_spec attempts maxAttempts) as [Hlt|Hge]; [|lia].
    pose proof (pollTry_world vars w) as [Hc Hs].
    destruct (pollTry' vars w) as [[c vars'] w']. simpl in Hc, Hs.
    destruct c as [|r|e].
    + destruct (IH (S attempts) vars' w') as [IHc IHs]; [lia|].
      split; [lia|congruence].
    + simpl. split; [lia|exact Hs].
    + destruct (maxAttempts <=? S attempts)%nat.
      * simpl. split; [lia|exact Hs].
      * pose proof (pollCatch_world e w') as [Hcc Hcs].
        destruct (IH (S attempts) vars' (pollCatch delayMs e w')) as [IHc IHs]; [lia|].
        split; [lia|congruence].
Qed.

(** While the service answers with pending snapshots the loop keeps
    going, one call per attempt. *)
Lemma pollLoop_pending_run (n attempts : nat) (vars : PollVars) (w : World) :
  attempts + n <= maxAttempts ->
  (forall i, i < n -> pendingOutcome (serviceScript (statusCalls w + i)) = true) ->
  exists (vars' : PollVars) (w' : World),
    pollLoop' attempts vars w = pollLoop' (attempts + n) vars' w'
    /\ statusCalls w' = statusCalls w + n.
Proof.
  revert attempts vars w. induction n as [|n IH]; intros attempts vars w Hle Hpend.
  - exists vars, w. rewrite !Nat.add_0_r. auto.
  - pose proof (Hpend 0 ltac:(lia)) as H0. rewrite Nat.add_0_r in H0.
    destruct (serviceScript (statusCalls w)) as [e|r] eqn:Hr; [discriminate|].
    simpl in H0. apply andb_true_iff in H0 as [Hprep Hterm].
    apply negb_true_iff in Hprep, Hterm.
    destruct (pollTry_response vars w r Hr) as (vars1 & w1 & Hc & _ & Htry).
    rewrite Hprep, Hterm in Htry.
    destruct (IH (S attempts) vars1 (record (Sleep delayMs) w1)) as (vars' & w' & Hrun & Hc').
    + lia.
    + intros i Hi. simpl. rewrite Hc.
      replace (S (statusCalls w) + i) with (statusCalls w + S i) by lia.
      apply Hpend. lia.
    + exists vars', w'. split.
      * rewrite pollLoop_step, Htry.
        destruct (Nat.ltb_spec attempts maxAttempts) as [_|Hge]; [|lia].
        rewrite Hrun. f_equal. lia.
      * rewrite Hc'. simpl. lia.
Qed.

End PollerFacts.

(** * Claims about the poller *)

(** C4: when the first [k] scripted outcomes are pending snapshots and the
    next one carries a non-empty serialized transaction, with
    [k + 1 <= maxAttempts], [waitForPaymentPreparation] returns that status
    response after exactly [k + 1] calls of [getOrderStatus]; when the first
    [maxAttempts] outcomes are all pending snapshots it throws the
    preparation-not-available error after exactly [maxAttempts] calls. *)
Theorem C4_poller_success_or_timeout
    (serviceScript : nat -> GatewayError + StatusResponse.t)
    (orderId apiKey : string) (maxAttempts delayMs : nat) :
  1 <= maxAttempts ->
  (forall (k : nat) (r : StatusResponse.t),
      k < maxAttempts ->
      (forall i, i < k -> pendingOutcome (serviceScript i) = true) ->
      serviceScript k = inr r ->
      hasPreparation r = true ->
      exists w' : World,
        waitForPaymentPreparation serviceScript orderId apiKey maxAttempts delayMs
          initialWorld = (Ok r, w')
        /\ statusCalls w' = S k)
  /\ ((forall i, i < maxAttempts -> pendingOutcome (serviceScript i) = true) ->
      exists w' : World,
        waitForPaymentPreparation serviceScript orderId apiKey maxAttempts delayMs
          initialWorld = (Throw (PreparationNotAvailable maxAttempts), w')
        /\ statusCalls w' = maxAttempts).
Proof.
  intros _. unfold waitForPaymentPreparation. split.
  - intros k r Hk Hpend Hr Hprep.
    destruct (pollLoop_pending_run serviceScript orderId apiKey maxAttempts delayMs
                k 0 {| lastPhase := ""; lastPaymentStatus := "" |} initialWorld)
      as (vars' & w' & Hrun & Hc); [lia|exact Hpend|].
    simpl in Hc, Hrun. rewrite Hrun, pollLoop_step.
    destruct (Nat.ltb_spec k maxAttempts) as [_|Hge]; [|lia].
    rewrite <- Hc in Hr.
    destruct (pollTry_response serviceScript orderId apiKey delayMs vars' w' r Hr)
      as (vars2 & w2 & Hc2 & _ & ->).
    rewrite Hprep. exists w2. split; [reflexivity|]. congruence.
  - intros Hpend.
    destruct (pollLoop_pending_run serviceScript orderId apiKey maxAttempts delayMs
                maxAttempts 0 {| lastPhase := ""; lastPaymentStatus := "" |} initialWorld)
      as (vars' & w' & Hrun & Hc); [lia|exact Hpend|].
    simpl in Hc, Hrun. rewrite Hrun, pollLoop_step.
    rewrite Nat.ltb_irrefl. exists w'. auto.
Qed.

Lemma C4_poller_success_or_timeout_witness :
  (exists w' : World,
      waitForPaymentPreparation
        (scriptOf [inr pendingResponse; inr pendingResponse] (inr readyResponse))
        "ord-1" "sk_staging_key" 15 2000 initialWorld = (Ok readyResponse, w')
      /\ statusCalls w' = 3)
  /\ (exists w' : World,
        waitForPaymentPreparation (scriptOf [] (inr pendingResponse))
          "ord-1" "sk_staging_key" 4 2000 initialWorld
        = (Throw (PreparationNotAvailable 4), w')
        /\ statusCalls w' = 4).
Proof.
  split.
  - apply (C4_poller_success_or_timeout
             (scriptOf [inr pendingResponse; inr pendingResponse] (inr readyResponse))
             "ord-1" "sk_staging_key" 15 2000 ltac:(lia)); [lia| |reflexivity..].
    intros [|[|i]] Hi; [reflexivity|reflexivity|lia].
  - apply (C4_poller_success_or_timeout (scriptOf [] (inr pendingResponse))
             "ord-1" "sk_staging_key" 4 2000 ltac:(lia)).
    intros i _. reflexivity.
Defined.

(** C5: a call of [getOrderStatus] that throws uses up its attempt.  On the
    last attempt the error is rethrown to the caller; on an earlier attempt
    the loop logs it, sleeps [delayMs] and goes on with the next attempt.
    In every run the poller makes at most [maxAttempts] calls. *)
Theorem C5_status_error_counts_as_attempt
    (serviceScript : nat -> GatewayError + StatusResponse.t)
    (orderId apiKey : string) (maxAttempts delayMs : nat)
    (attempts : nat) (vars : PollVars) (w : World) (e : GatewayError) :
  attempts < maxAttempts ->
  serviceScript (statusCalls w) = inl e ->
  (S attempts = maxAttempts ->
     pollLoop serviceScript orderId apiKey maxAttempts delayMs attempts vars w
     = (Throw (StatusError e), afterGetOrder orderId w))
  /\ (S attempts < maxAttempts ->
       pollLoop serviceScript orderId apiKey maxAttempts delayMs attempts vars w
       = pollLoop serviceScript orderId apiKey maxAttempts delayMs (S attempts) vars
           (record (Sleep delayMs)
              (record (LogError "Error polling order status: " (StatusError e))
                 (afterGetOrder orderId w))))
  /\ statusCalls (snd (waitForPaymentPreparation serviceScript orderId apiKey
                         maxAttempts delayMs initialWorld)) <= maxAttempts.
Proof.
  intros Hlt He. repeat split.
  - intros Hlast. rewrite pollLoop_step, (pollTry_error _ _ _ _ _ _ _ He).
    destruct (Nat.ltb_spec attempts maxAttempts) as [_|Hge]; [|lia].
    destruct (Nat.leb_spec maxAttempts (S attempts)) as [_|Hgt]; [reflexivity|lia].
  - intros Hmore. rewrite pollLoop_step, (pollTry_error _ _ _ _ _ _ _ He).
    destruct (Nat.ltb_spec attempts maxAttempts) as [_|Hge]; [|lia].
    destruct (Nat.leb_spec maxAttempts (S attempts)) as [Hle|_]; [lia|reflexivity].
  - unfold waitForPaymentPreparation.
    pose proof (pollLoop_world serviceScript orderId apiKey maxAttempts delayMs
                  maxAttempts 0 {| lastPhase := ""; lastPaymentStatus := "" |}
                  initialWorld ltac:(lia)) as [Hc _].
    simpl in Hc. exact Hc.
Qed.

Lemma C5_status_error_counts_as_attempt_witness :
  waitForPaymentPreparation (scriptOf [] (inl (GetStatusError "Error: timeout")))
    "ord-1" "sk_staging_key" 1 2000 initialWorld
  = (Throw (StatusError (GetStatusError "Error: timeout")),
     afterGetOrder "ord-1" initialWorld).
Proof.
  apply (C5_status_error_counts_as_attempt
           (scriptOf [] (inl (GetStatusError "Error: timeout")))
           "ord-1" "sk_staging_key" 1 2000 0
           {| lastPhase := ""; lastPaymentStatus := "" |} initialWorld
           (GetStatusError "Error: timeout")); [lia|reflexivity|reflexivity].
Defined.

(** An error on the first attempt does not end the run: the preparation
    seen on the second attempt is returned. *)
Example poller_recovers_after_error :
  waitForPaymentPreparation
    (scriptOf [inl (GetStatusError "Error: timeout")] (inr readyResponse))
    "ord-1" "sk_staging_key" 15 2000 initialWorld
  = (Ok readyResponse,
     {| trace := [ GetOrder "ord-1";
                   LogError "Error polling order status: "
                     (StatusError (GetStatusError "Error: timeout"));
                   Sleep 2000;
                   GetOrder "ord-1";
                   Log "Order phase: payment";
                   Log "Payment status: awaiting-payment" ];
        statusCalls := 2 |}).
Proof. reflexivity. Qed.

(** When every call throws, the error of the last attempt reaches the
    caller after [maxAttempts] calls. *)
Example poller_all_errors :
  waitForPaymentPreparation (scriptOf [] (inl (GetStatusError "Error: timeout")))
    "ord-1" "sk_staging_key" 3 2000 initialWorld
  = (Throw (StatusError (GetStatusError "Error: timeout")),
     {| trace := [ GetOrder "ord-1";
                   LogError "Error polling order status: "
                     (StatusError (GetStatusError "Error: timeout"));
                   Sleep 2000;
                   GetOrder "ord-1";
                   LogError "Error polling order status: "
                     (StatusError (GetStatusError "Error: timeout"));
                   Sleep 2000;
                   GetOrder "ord-1" ];
        statusCalls := 3 |}).
Proof. reflexivity. Qed.

(** A terminal payment status seen before the last attempt goes through
    the [catch] block like any polling error, and the loop continues; only
    on the last attempt does it reach the caller. *)
Lemma pollLoop_terminal_status
    (serviceScript : nat -> GatewayError + StatusResponse.t)
    (orderId apiKey : string) (maxAttempts delayMs : nat)
    (attempts : nat) (vars : PollVars) (w : World) (r : StatusResponse.t) :
  attempts < maxAttempts ->
  serviceScript (statusCalls w) = inr r ->
  hasPreparation r = false ->
  hasTerminalStatus r = true ->
  exists (vars' : PollVars) (w' : World),
    statusCalls w' = S (statusCalls w)
    /\ pollLoop serviceScript orderId apiKey maxAttempts delayMs attempts vars w
       = if (maxAttempts <=? S attempts)%nat then
           (Throw (PaymentStatusError
                     (default "" (paymentStatusOf (StatusResponse.orderOf r)))), w')
         else
           pollLoop serviceScript orderId apiKey maxAttempts delayMs (S attempts) vars'
             (pollCatch delayMs
                (PaymentStatusError
                   (default "" (paymentStatusOf (StatusResponse.orderOf r)))) w').
Proof.
  intros Hlt Hr Hprep Hterm.
  destruct (pollTry_response serviceScript orderId apiKey delayMs vars w r Hr)
    as (vars' & w' & Hc & _ & Htry).
  rewrite Hprep, Hterm in Htry. exists vars', w'. split; [exact Hc|].
  rewrite pollLoop_step, Htry.
  destruct (Nat.ltb_spec attempts maxAttempts) as [_|Hge]; [reflexivity|lia].
Qed.

(** C2 does not hold of the code: the [throw] for a terminal payment status
    sits inside the [try] block, so the [catch] block of the same attempt
    takes it for a polling error.  With [maxAttempts = 3] and a service that
    reports [failed] from the first attempt on, the poller makes three
    calls and sleeps twice before the error reaches the caller; and when
    the second snapshot carries a serialized transaction the poller even
    returns it. *)
Theorem C2_terminal_status_keeps_polling :
  waitForPaymentPreparation (scriptOf [] (inr failedResponse))
    "ord-1" "sk_staging_key" 3 2000 initialWorld
  = (Throw (PaymentStatusError "failed"),
     {| trace := [ GetOrder "ord-1";
                   Log "Order phase: payment";
                   Log "Payment status: failed";
                   LogError "Error polling order status: " (PaymentStatusError "failed");
                   Sleep 2000;
                   GetOrder "ord-1";
                   LogError "Error polling order status: " (PaymentStatusError "failed");
                   Sleep 2000;
                   GetOrder "ord-1" ];
        statusCalls := 3 |})
  /\ fst (waitForPaymentPreparation (scriptOf [inr failedResponse] (inr readyResponse))
            "ord-1" "sk_staging_key" 3 2000 initialWorld)
     = Ok readyResponse.
Proof. split; reflexivity. Qed.

(** * Properties of the payment signer *)

(** Runs the monadic steps of the goal as far as they are determined. *)
Ltac run_steps :=
  repeat (progress (cbv [mbind M_bind mret M_ret emit throw liftChain tryCatch
                         perform sleep]; simpl)).

Section SignerFacts.

Variable chain : ChainClient.

Lemma bind_run {A B : Type} (m : M A) (k : A -> M B) (w : World) :
  (m ≫= k) w =
  match m w with
  | (Ok a, w') => k a w'
  | (Throw e, w') => (Throw e, w')
  end.
Proof. reflexivity. Qed.

Lemma trace_record (ev : Event) (w : World) : trace (record ev w) = trace w ++ [ev].
Proof. reflexivity. Qed.

(** The [try] block extends the trace by events on [rpcUrl] only, with at
    most one submission among them. *)
Lemma submitTransaction_trace (rpcUrl privateKey serializedTransaction : string)
    (w : World) :
  exists evs : list Event,
    trace (snd (submitTransaction chain rpcUrl privateKey serializedTransaction w))
    = trace w ++ evs
    /\ forallb (onEndpoint rpcUrl) evs = true
    /\ sendCount evs <= 1.
Proof.
  unfold submitTransaction. run_steps.
  destruct (parseTransaction chain serializedTransaction) as [msg|parsed]; run_steps.
  { exists []. rewrite app_nil_r. auto. }
  destruct (sendTransaction chain rpcUrl privateKey parsed) as [msg|hash]; run_steps.
  { exists [SendTransaction rpcUrl parsed]. simpl. rewrite String.eqb_refl. auto. }
  destruct (waitReceipt chain rpcUrl hash) as [msg|receipt]; run_steps.
  - exists [SendTransaction rpcUrl parsed; Log ("Transaction sent! Hash: " +:+ hash);
            WaitReceipt hash].
    simpl. rewrite String.eqb_refl, <- !app_assoc. auto.
  - exists [SendTransaction rpcUrl parsed; Log ("Transaction sent! Hash: " +:+ hash);
            WaitReceipt hash;
            Log ("Transaction confirmed in block: " +:+ pretty (blockNumber receipt))].
    simpl. rewrite String.eqb_refl, <- !app_assoc. auto.
Qed.

(** The three guards, on an order of type [Order]. *)
Lemma processPayment_insufficient_funds (o : Order.t) (privateKey : string) (w : World) :
  Payment.status (Order.payment o) = "crypto-payer-insufficient-funds" ->
  processPayment chain (Order.data o) privateKey w = (Throw InsufficientFunds, w).
Proof. intros H. unfold processPayment. simpl. rewrite H. reflexivity. Qed.

Lemma processPayment_address_required (o : Order.t) (privateKey : string) (w : World) :
  Payment.status (Order.payment o) <> "crypto-payer-insufficient-funds" ->
  Quote.status (Order.quote o) = "requires-physical-address" ->
  processPayment chain (Order.data o) privateKey w = (Throw PhysicalAddressRequired, w).
Proof.
  intros Hs Hq. unfold processPayment. simpl.
  apply String.eqb_neq in Hs. rewrite Hs, Hq. reflexivity.
Qed.

Lemma processPayment_no_transaction (o : Order.t) (privateKey : string) (w : World) :
  Payment.status (Order.payment o) <> "crypto-payer-insufficient-funds" ->
  Quote.status (Order.quote o) <> "requires-physical-address" ->
  strTruthy (serializedTransactionOf (Order.payment o)) = false ->
  processPayment chain (Order.data o) privateKey w
  = (Throw (NoSerializedTransaction (Order.data o)),
     record (Log ("Payment method: " +:+ Payment.method (Order.payment o)))
       (record (Log ("Payment status: " +:+ Payment.status (Order.payment o))) w)).
Proof.
  intros Hs Hq Htx. unfold processPayment. simpl.
  apply String.eqb_neq in Hs, Hq. rewrite Hs, Hq. run_steps.
  destruct (serializedTransactionOf (Order.payment o)) as [tx|]; [|reflexivity].
  simpl in Htx. apply negb_false_iff in Htx. rewrite Htx. reflexivity.
Qed.

(** Past the guards: the provider is opened on the endpoint of the payment
    method and nothing else is contacted. *)
Lemma processPayment_endpoint (o : Order.t) (privateKey : string) (w : World) :
  Payment.status (Order.payment o) <> "crypto-payer-insufficient-funds" ->
  Quote.status (Order.quote o) <> "requires-physical-address" ->
  strTruthy (serializedTransactionOf (Order.payment o)) = true ->
  exists rest : list Event,
    trace (snd (processPayment chain (Order.data o) privateKey w))
    = trace w
      ++ [ Log ("Payment status: " +:+ Payment.status (Order.payment o));
           Log ("Payment method: " +:+ Payment.method (Order.payment o));
           NewProvider (rpcUrlOf (Payment.method (Order.payment o))) ]
      ++ rest
    /\ forallb (onEndpoint (rpcUrlOf (Payment.method (Order.payment o)))) rest = true.
Proof.
  intros Hs Hq Htx. unfold processPayment. simpl.
  apply String.eqb_neq in Hs, Hq. rewrite Hs, Hq. run_steps.
  destruct (serializedTransactionOf (Order.payment o)) as [tx|]; [|discriminate].
  simpl in Htx. apply negb_true_iff in Htx. rewrite Htx. run_steps.
  set (rpcUrl := rpcUrlOf (Payment.method (Order.payment o))).
  set (w3 := record (NewProvider rpcUrl) _).
  assert (Hw3 : trace w3 = trace w
            ++ [ Log ("Payment status: " +:+ Payment.status (Order.payment o));
                 Log ("Payment method: " +:+ Payment.method (Order.payment o));
                 NewProvider rpcUrl ]).
  { unfold w3. rewrite !trace_record, <- !app_assoc. reflexivity. }
  clearbody w3.
  destruct (newWallet chain privateKey) as [msg|address]; run_steps.
  { exists []. rewrite Hw3. auto. }
  destruct (submitTransaction_trace rpcUrl privateKey tx w3) as (evs & Htr & Hon & _).
  destruct (submitTransaction chain rpcUrl privateKey tx w3) as [[receipt|e] w4];
    simpl in Htr |- *.
  - exists evs. rewrite Htr, Hw3, <- !app_assoc. auto.
  - exists (evs ++ [LogError "Error sending transaction:" e]).
    rewrite Htr, Hw3, <- !app_assoc.
    split; [reflexivity|]. rewrite forallb_app, Hon. reflexivity.
Qed.

(** On any object at all, the signer submits at most once. *)
Lemma processPayment_sends (order : OrderData.t) (privateKey : string) :
  SendsAtMost 1 (processPayment chain order privateKey).
Proof.
  intros w. unfold processPayment.
  destruct (OrderData.payment order) as [pay|]; run_steps; [|lia].
  destruct (String.eqb (Payment.status pay) _); run_steps; [lia|].
  destruct (OrderData.quote order) as [q|]; run_steps; [|lia].
  destruct (String.eqb (Quote.status q) _); run_steps; [lia|].
  destruct (serializedTransactionOf pay) as [tx|]; run_steps;
    [|rewrite !sends_record; simpl; lia].
  destruct (String.eqb tx ""); run_steps; [rewrite !sends_record; simpl; lia|].
  set (w3 := record (NewProvider _) _).
  assert (Hw3 : sends w3 = sends w) by (unfold w3; rewrite !sends_record; simpl; lia).
  clearbody w3.
  destruct (newWallet chain privateKey) as [msg|address]; run_steps; [lia|].
  destruct (submitTransaction_trace (rpcUrlOf (Payment.method pay)) privateKey tx w3)
    as (evs & Htr & _ & Hone).
  destruct (submitTransaction chain _ privateKey tx w3) as [[receipt|e] w4];
    simpl in Htr |- *.
  - unfold sends in *. rewrite Htr, sendCount_app. lia.
  - rewrite sends_record. simpl.
    unfold sends in *. rewrite Htr, sendCount_app. lia.
Qed.

End SignerFacts.

(** * Claims about the signer *)

(** C3: [processPayment] tests its preconditions in order, before anything
    reaches the chain.  (a) With payment status
    [crypto-payer-insufficient-funds] it throws the insufficient-funds
    error and the world is unchanged, whether or not a serialized
    transaction is present.  (b) Otherwise, with quote status
    [requires-physical-address] it throws the address-required error, the
    world again unchanged.  (c) Otherwise, without a serialized transaction
    it throws the error that carries the whole order, after two log lines
    and no other event. *)
Theorem C3_signer_preconditions
    (chain : ChainClient) (o : Order.t) (privateKey : string) (w : World) :
  (Payment.status (Order.payment o) = "crypto-payer-insufficient-funds" ->
     processPayment chain (Order.data o) privateKey w = (Throw InsufficientFunds, w))
  /\ (Payment.status (Order.payment o) <> "crypto-payer-insufficient-funds" ->
      Quote.status (Order.quote o) = "requires-physical-address" ->
      processPayment chain (Order.data o) privateKey w
      = (Throw PhysicalAddressRequired, w))
  /\ (Payment.status (Order.payment o) <> "crypto-payer-insufficient-funds" ->
      Quote.status (Order.quote o) <> "requires-physical-address" ->
      strTruthy (serializedTransactionOf (Order.payment o)) = false ->
      exists w' : World,
        processPayment chain (Order.data o) privateKey w
        = (Throw (NoSerializedTransaction (Order.data o)), w')
        /\ trace w'
           = trace w
             ++ [ Log ("Payment status: " +:+ Payment.status (Order.payment o));
                  Log ("Payment method: " +:+ Payment.method (Order.payment o)) ]).
Proof.
  split; [|split].
  - apply processPayment_insufficient_funds.
  - apply processPayment_address_required.
  - intros Hs Hq Htx. eexists. split.
    + apply processPayment_no_transaction; assumption.
    + rewrite !trace_record, <- app_assoc. reflexivity.
Qed.

Lemma C3_signer_preconditions_witness :
  processPayment sampleChain
    (Order.data (sampleOrder "crypto-payer-insufficient-funds" "valid" "base"
                   (Some "0x02f8")))
    "0xkey" initialWorld
  = (Throw InsufficientFunds, initialWorld)
  /\ processPayment sampleChain
       (Order.data (sampleOrder "awaiting-payment" "requires-physical-address" "base"
                      (Some "0x02f8")))
       "0xkey" initialWorld
     = (Throw PhysicalAddressRequired, initialWorld)
  /\ exists w' : World,
       processPayment sampleChain
         (Order.data (sampleOrder "awaiting-payment" "valid" "base" None))
         "0xkey" initialWorld
       = (Throw (NoSerializedTransaction
                   (Order.data (sampleOrder "awaiting-payment" "valid" "base" None))), w')
       /\ trace w' = [ Log "Payment status: awaiting-payment";
                       Log "Payment method: base" ].
Proof.
  split; [|split].
  - apply (C3_signer_preconditions sampleChain
             (sampleOrder "crypto-payer-insufficient-funds" "valid" "base" (Some "0x02f8"))).
    reflexivity.
  - apply (C3_signer_preconditions sampleChain
             (sampleOrder "awaiting-payment" "requires-physical-address" "base"
                (Some "0x02f8"))); [discriminate|reflexivity].
  - apply (C3_signer_preconditions sampleChain
             (sampleOrder "awaiting-payment" "valid" "base" None) "0xkey" initialWorld);
      [discriminate|discriminate|reflexivity].
Defined.

(** C6: past its preconditions [processPayment] opens the provider on the
    endpoint picked from [order.payment.method] and contacts no other
    endpoint; the endpoint is the Polygon mainnet RPC for [polygon], the
    Amoy RPC for [polygon-amoy], the Base mainnet RPC for [base], the Base
    Sepolia RPC for [base-sepolia], and the Amoy RPC for every other
    method. *)
Theorem C6_rpc_endpoint_of_method
    (chain : ChainClient) (o : Order.t) (privateKey : string) (w : World) :
  Payment.status (Order.payment o) <> "crypto-payer-insufficient-funds" ->
  Quote.status (Order.quote o) <> "requires-physical-address" ->
  strTruthy (serializedTransactionOf (Order.payment o)) = true ->
  (exists rest : list Event,
      trace (snd (processPayment chain (Order.data o) privateKey w))
      = trace w
        ++ [ Log ("Payment status: " +:+ Payment.status (Order.payment o));
             Log ("Payment method: " +:+ Payment.method (Order.payment o));
             NewProvider (rpcUrlOf (Payment.method (Order.payment o))) ]
        ++ rest
      /\ forallb (onEndpoint (rpcUrlOf (Payment.method (Order.payment o)))) rest = true)
  /\ (rpcUrlOf "polygon" = "https://polygon-rpc.com/"
      /\ rpcUrlOf "polygon-amoy" = "https://rpc-amoy.polygon.technology/"
      /\ rpcUrlOf "base" = "https://mainnet.base.org"
      /\ rpcUrlOf "base-sepolia" = "https://sepolia.base.org")
  /\ (forall method : string,
        method <> "polygon" -> method <> "polygon-amoy" ->
        method <> "base" -> method <> "base-sepolia" ->
        rpcUrlOf method = "https://rpc-amoy.polygon.technology/").
Proof.
  intros Hs Hq Htx. split; [|split].
  - apply processPayment_endpoint; assumption.
  - repeat split.
  - intros method H1 H2 H3 H4. unfold rpcUrlOf.
    apply String.eqb_neq in H1, H2, H3, H4. rewrite H1, H2, H3, H4. reflexivity.
Qed.

Lemma C6_rpc_endpoint_of_method_witness :
  exists rest : list Event,
    trace (snd (processPayment sampleChain
                  (Order.data (sampleOrder "awaiting-payment" "valid" "xyz" (Some "0x02f8")))
                  "0xkey" initialWorld))
    = [ Log "Payment status: awaiting-payment";
        Log "Payment method: xyz";
        NewProvider "https://rpc-amoy.polygon.technology/" ] ++ rest
    /\ forallb (onEndpoint "https://rpc-amoy.polygon.technology/") rest = true.
Proof.
  apply (C6_rpc_endpoint_of_method sampleChain
           (sampleOrder "awaiting-payment" "valid" "xyz" (Some "0x02f8"))
           "0xkey" initialWorld); [discriminate|discriminate|reflexivity].
Defined.

(** The whole trace of a successful payment on Base. *)
Example processPayment_on_base :
  processPayment sampleChain
    (Order.data (sampleOrder "awaiting-payment" "valid" "base" (Some "0x02f8")))
    "0xkey" initialWorld
  = (Ok {| transactionHash := "0xHash"; blockNumber := 1 |},
     {| trace := [ Log "Payment status: awaiting-payment";
                   Log "Payment method: base";
                   NewProvider "https://mainnet.base.org";
                   SendTransaction "https://mainnet.base.org" "0x02f8";
                   Log "Transaction sent! Hash: 0xHash";
                   WaitReceipt "0xHash";
                   Log "Transaction confirmed in block: 1" ];
        statusCalls := 0 |}).
Proof. reflexivity. Qed.

(** * Properties of the [buy] action *)

Section FlowFacts.

Variable serviceScript : nat -> GatewayError + StatusResponse.t.
Variable chain : ChainClient.

Lemma sendsAtMost_bind {A B : Type} (n1 n2 n : nat) (m : M A) (k : A -> M B) :
  n1 + n2 <= n ->
  SendsAtMost n1 m -> (forall a, SendsAtMost n2 (k a)) -> SendsAtMost n (m ≫= k).
Proof.
  intros Hn Hm Hk w. rewrite bind_run. specialize (Hm w).
  destruct (m w) as [[a|e] w']; simpl in *; [|lia].
  specialize (Hk a w'). lia.
Qed.

Lemma sendsAtMost_tryCatch {A : Type} (n1 n2 n : nat) (m : M A) (h : Error -> M A) :
  n1 + n2 <= n ->
  SendsAtMost n1 m -> (forall e, SendsAtMost n2 (h e)) -> SendsAtMost n (tryCatch m h).
Proof.
  intros Hn Hm Hh w. unfold tryCatch. specialize (Hm w).
  destruct (m w) as [[a|e] w']; simpl in *; [lia|].
  specialize (Hh e w'). lia.
Qed.

Lemma sendsAtMost_emit (n : nat) (ev : Event) :
  isSend ev = false -> SendsAtMost n (emit ev).
Proof. intros H w. simpl. rewrite sends_record, H. lia. Qed.

Lemma sendsAtMost_ret {A : Type} (n : nat) (a : A) : SendsAtMost n (mret a).
Proof. intros w. simpl. lia. Qed.

Lemma sendsAtMost_perform (n : nat) (f : World -> World) :
  (forall w, sends (f w) = sends w) -> SendsAtMost n (perform f).
Proof. intros H w. simpl. rewrite H. lia. Qed.

Lemma getOrderStatus_sends (n : nat) (orderId apiKey : string) :
  SendsAtMost n (getOrderStatus serviceScript orderId apiKey).
Proof.
  intros w. unfold getOrderStatus. fold (afterGetOrder orderId w).
  destruct (serviceScript (statusCalls w)); simpl; rewrite sends_afterGetOrder; lia.
Qed.

Lemma waitForPaymentPreparation_sends (n : nat) (orderId apiKey : string)
    (maxAttempts delayMs : nat) :
  SendsAtMost n (waitForPaymentPreparation serviceScript orderId apiKey
                   maxAttempts delayMs).
Proof.
  intros w. unfold waitForPaymentPreparation.
  destruct (pollLoop_world serviceScript orderId apiKey maxAttempts delayMs
              (maxAttempts - 0) 0 {| lastPhase := ""; lastPaymentStatus := "" |} w eq_refl)
    as [_ Hs].
  rewrite Hs. lia.
Qed.

(** Poller, then signer: one submission at most. *)
Lemma payOrder_sends (orderId apiKey privateKey : string) :
  SendsAtMost 1 (payOrder serviceScript chain orderId apiKey privateKey).
Proof.
  unfold payOrder. apply (sendsAtMost_tryCatch 1 0); [lia| |].
  - apply (sendsAtMost_bind 0 1); [lia|apply waitForPaymentPreparation_sends|].
    intros r. apply (sendsAtMost_bind 0 1); [lia|apply sendsAtMost_emit; reflexivity|].
    intros _. apply (sendsAtMost_bind 1 0); [lia|apply processPayment_sends|].
    intros _. apply sendsAtMost_emit; reflexivity.
  - intros e. apply (sendsAtMost_bind 0 0); [lia|apply sendsAtMost_emit; reflexivity|].
    intros _. apply sendsAtMost_emit; reflexivity.
Qed.

Lemma sends_log_lines (lines : list string) (w : World) :
  sends (foldl (fun w' l => record (Log l) w') w lines) = sends w.
Proof.
  revert w. induction lines as [|l lines IH]; intros w; simpl; [reflexivity|].
  rewrite IH, sends_record. simpl. lia.
Qed.

Lemma reportFinalOrder_sends (orderId apiKey email paymentStatus : string)
    (shippingAddress : option ShippingAddress) (w : World) :
  sends (snd (reportFinalOrder serviceScript orderId apiKey email paymentStatus
                shippingAddress w)) = sends w.
Proof.
  unfold reportFinalOrder, tryCatch. rewrite bind_run.
  unfold getOrderStatus. fold (afterGetOrder orderId w).
  destruct (serviceScript (statusCalls w)) as [e|r].
  - unfold emit. cbn [snd]. rewrite sends_record, sends_afterGetOrder. simpl. lia.
  - unfold perform. cbn [snd]. rewrite sends_log_lines. apply sends_afterGetOrder.
Qed.

(** One pass of the monitor makes calls to the service only. *)
Lemma monitorTry_sends (orderId apiKey email : string)
    (shippingAddress : option ShippingAddress) (vars : MonitorVars) (w : World) :
  sends (snd (monitorTry serviceScript orderId apiKey email shippingAddress vars w))
  = sends w.
Proof.
  unfold monitorTry, getOrderStatus. fold (afterGetOrder orderId w).
  destruct (serviceScript (statusCalls w)) as [e|r]; simpl.
  { rewrite sends_record, sends_afterGetOrder. simpl. lia. }
  set (order := StatusResponse.orderOf r).
  pose proof (logOnChange_world "Order phase: " (strOr (OrderData.phase order) "unknown")
                (currentPhase vars) (afterGetOrder orderId w)) as [_ Hs1].
  destruct (logOnChange "Order phase: " _ (currentPhase vars) _) as [p1 w2].
  pose proof (logOnChange_world "Payment status: "
                (strOr (paymentStatusOf order) "unknown")
                (currentPaymentStatus vars) w2) as [_ Hs2].
  destruct (logOnChange "Payment status: " _ (currentPaymentStatus vars) _) as [p2 w3].
  simpl in Hs1, Hs2.
  destruct (_ || _); simpl.
  - rewrite reportFinalOrder_sends, Hs2, Hs1. apply sends_afterGetOrder.
  - rewrite sends_record, Hs2, Hs1, sends_afterGetOrder. simpl. lia.
Qed.

Lemma monitorLoop_step (orderId apiKey email : string)
    (shippingAddress : option ShippingAddress) (maxAttempts attempts : nat)
    (vars : MonitorVars) (w : World) :
  monitorLoop serviceScript orderId apiKey email shippingAddress maxAttempts
    attempts vars w =
  if (attempts <? maxAttempts)%nat then
    match monitorTry serviceScript orderId apiKey email shippingAddress vars w with
    | (Break, _, w') => w'
    | (Continue, vars', w') =>
        monitorLoop serviceScript orderId apiKey email shippingAddress maxAttempts
          (S attempts) vars' w'
    end
  else w.
Proof.
  rewrite monitorLoop_equation_1. unfold inspect.
  generalize (@eq_refl bool (attempts <? maxAttempts)%nat).
  generalize (attempts <? maxAttempts)%nat at 2 4 5.
  intros [] H; reflexivity.
Qed.

(** The monitor never submits, whatever snapshots it observes. *)
Lemma monitorLoop_sends (orderId apiKey email : string)
    (shippingAddress : option ShippingAddress) (maxAttempts : nat)
    (n attempts : nat) (vars : MonitorVars) (w : World) :
  maxAttempts - attempts = n ->
  sends (monitorLoop serviceScript orderId apiKey email shippingAddress maxAttempts
           attempts vars w) = sends w.
Proof.
  revert attempts vars w. induction n as [|n IH]; intros attempts vars w Hn;
    rewrite monitorLoop_step;
    destruct (Nat.ltb_spec attempts maxAttempts) as [Hlt|Hge];
    try reflexivity; try lia.
  pose proof (monitorTry_sends orderId apiKey email shippingAddress vars w) as Hs.
  destruct (monitorTry _ _ _ _ _ _ _) as [[step vars'] w']. simpl in Hs.
  destruct step; [|exact Hs].
  rewrite IH by lia. exact Hs.
Qed.

Lemma buyAfterOrder_sends (result : PurchaseResult) (apiKey email : string)
    (envPrivateKey : option string) (shippingAddress : option ShippingAddress) :
  SendsAtMost 1 (buyAfterOrder serviceScript chain result apiKey email envPrivateKey
                   shippingAddress).
Proof.
  unfold buyAfterOrder.
  apply (sendsAtMost_bind 0 1); [lia|apply sendsAtMost_emit; reflexivity|].
  intros _. apply (sendsAtMost_bind 1 0); [lia| |].
  - destruct (String.eqb (resultStatus result) "requires-physical-address");
      [apply sendsAtMost_emit; reflexivity|].
    destruct (String.eqb (resultStatus result) "valid"); [|apply sendsAtMost_ret].
    apply (sendsAtMost_bind 0 1); [lia|apply sendsAtMost_emit; reflexivity|].
    intros _. destruct envPrivateKey as [privateKey|];
      [|apply sendsAtMost_emit; reflexivity].
    destruct (String.eqb privateKey ""); [apply sendsAtMost_emit; reflexivity|].
    apply payOrder_sends.
  - intros _. destruct (String.eqb (resultStatus result) "valid"); [|apply sendsAtMost_ret].
    apply (sendsAtMost_bind 0 0); [lia|apply sendsAtMost_emit; reflexivity|].
    intros _. apply sendsAtMost_perform. intros w.
    apply (monitorLoop_sends _ _ _ _ _ (10 - 0)). reflexivity.
Qed.

End FlowFacts.

(** * Claims about the [buy] action *)

(** C1: in one run of the [buy] action, for any order identifier, any
    behaviour of the checkout service and of the chain, the trace holds at
    most one [sendTransaction]; and the monitoring loop that follows the
    payment adds none, whatever snapshots it observes -- including
    snapshots that still carry a serialized transaction. *)
Theorem C1_single_submission
    (serviceScript : nat -> GatewayError + StatusResponse.t) (chain : ChainClient)
    (result : PurchaseResult) (apiKey email : string)
    (envPrivateKey : option string) (shippingAddress : option ShippingAddress) :
  sends (snd (buyAfterOrder serviceScript chain result apiKey email envPrivateKey
                shippingAddress initialWorld)) <= 1
  /\ forall w : World,
       sends (monitorLoop serviceScript (resultOrderId result) apiKey email
                shippingAddress 10 0
                {| currentPhase := "created"; currentPaymentStatus := "unknown" |} w)
       = sends w.
Proof.
  split.
  - apply (buyAfterOrder_sends serviceScript chain result apiKey email envPrivateKey
             shippingAddress initialWorld).
  - intros w. apply (monitorLoop_sends _ _ _ _ _ _ (10 - 0)). reflexivity.
Qed.

(** A service that goes on reporting the same prepared transaction after
    the payment: the transaction is submitted once, and the monitor polls
    ten times without submitting again. *)
Example stale_snapshot_single_submission :
  let w := snd (buyAfterOrder (scriptOf [] (inr readyResponse)) sampleChain
                  {| resultOrderId := "ord-1"; resultStatus := "valid" |}
                  "sk_staging_key" "buyer@example.com" (Some "0xkey") None
                  initialWorld) in
  sends w = 1 /\ statusCalls w = 11.
Proof. vm_compute. split; reflexivity. Qed.

(** * Further properties of the product source *)

Section ExtractionFacts.

Lemma string_length_append (a b : string) :
  String.length (a +:+ b) = String.length a + String.length b.
Proof.
  induction a as [|c a IH]; [reflexivity|].
  rewrite append_cons. simpl. rewrite IH. reflexivity.
Qed.

(** What [[A-Z0-9]{n}] consumed is matched again by [[A-Z0-9]{n}] on its
    own, whatever follows it. *)
Lemma matchAsinChars_token (n : nat) (s tok rest : string) :
  matchAsinChars n s = Some (tok, rest) ->
  forall rest' : string, matchAsinChars n (tok +:+ rest') = Some (tok, rest').
Proof.
  revert s tok rest. induction n as [|n IH]; intros s tok rest; simpl.
  - intros [= <- <-] rest'. reflexivity.
  - destruct s as [|c s']; [discriminate|].
    destruct (isAsinChar c) eqn:Hc; [|discriminate].
    destruct (matchAsinChars n s') as [[tok' rest0]|] eqn:Hm; [|discriminate].
    intros [= <- <-] rest'. rewrite append_cons, Hc, (IH _ _ _ Hm rest'). reflexivity.
Qed.

Lemma matchAsinChars_shape (n : nat) (s : string) :
  matchAsinChars n s = Some (s, "") <-> String.length s = n /\ allAsinChars s = true.
Proof.
  revert s. induction n as [|n IH]; intros s.
  - destruct s as [|c s]; simpl; split; try discriminate; auto.
    intros [? _]. discriminate.
  - destruct s as [|c s]; simpl.
    { split; [discriminate|intros [? _]; discriminate]. }
    destruct (isAsinChar c); simpl;
      [|split; [discriminate|intros [_ ?]; discriminate]].
    specialize (IH s). split.
    + destruct (matchAsinChars n s) as [[tok rest]|] eqn:Hm; [|discriminate].
      intros [= -> ->]. destruct IH as [IH _]. destruct (IH eq_refl). auto.
    + intros [[= Hlen] Hall]. destruct IH as [_ IH]. rewrite (IH (conj Hlen Hall)).
      reflexivity.
Qed.

(** The anchored pattern looks no further than the first slash after its
    own. *)
Lemma matchAsinAt_slash_eq (c : ascii) (a b : string) :
  matchAsinAt (String c (a +:+ String "/" b)) = matchAsinAt (String c (a +:+ "/")).
Proof.
  rewrite !matchAsinAt_cons. destruct (Ascii.eqb c "/"); [|reflexivity].
  rewrite (matchAsinChars_before_slash 10 a b).
  destruct (matchAsinChars 10 (a +:+ "/")) as [[tok rest]|] eqn:Hm; [|reflexivity].
  destruct (matchAsinChars_slash_rest _ _ _ _ Hm) as (d & r & ->).
  rewrite append_cons. reflexivity.
Qed.

Lemma asinPatternMatch_cons (c : ascii) (s : string) :
  asinPatternMatch (String c s) =
  match matchAsinAt (String c s) with
  | Some tok => Some tok
  | None => asinPatternMatch s
  end.
Proof. reflexivity. Qed.

End ExtractionFacts.

(** A match of the pattern, located in the URL. *)
Lemma asinPatternMatch_occurrence (url tok : string) :
  asinPatternMatch url = Some tok ->
  exists pre rest : string,
    url = pre +:+ "/" +:+ tok +:+ rest
    /\ asinTest tok = true
    /\ matchAsinEnd rest = true
    /\ asinPatternMatch (pre +:+ "/") = None.
Proof.
  revert tok.
  induction url as [|c url IH]; intros tok; [discriminate|].
  rewrite asinPatternMatch_cons.
  destruct (matchAsinAt (String c url)) as [tok'|] eqn:Hat.
  - intros [= ->]. rewrite matchAsinAt_cons in Hat.
    destruct (Ascii.eqb_spec c "/") as [->|]; [|discriminate].
    destruct (matchAsinChars 10 url) as [[tok' rest]|] eqn:Hm; [|discriminate].
    destruct (matchAsinEnd rest) eqn:Hend; [|discriminate].
    injection Hat as ->. exists "", rest.
    destruct (matchAsinChars_Some _ _ _ _ Hm) as [-> _].
    repeat split; [|exact Hend].
    unfold asinTest. rewrite <- (append_empty_r tok) at 1.
    rewrite (matchAsinChars_token _ _ _ _ Hm ""). reflexivity.
  - intros Hrest. destruct (IH _ Hrest) as (pre & rest & -> & Hvalid & Hend & Hpre).
    exists (String c pre), rest. repeat split; try assumption.
    rewrite append_cons, asinPatternMatch_cons.
    change ("/" +:+ tok +:+ rest) with (String "/" (tok +:+ rest)) in Hat.
    rewrite matchAsinAt_slash_eq in Hat. rewrite Hat. exact Hpre.
Qed.

Lemma includesChar_append (c : ascii) (a b : string) :
  includesChar c (a +:+ b) = includesChar c a || includesChar c b.
Proof.
  induction a as [|d a IH]; [reflexivity|].
  rewrite append_cons. simpl. rewrite IH, orb_assoc. reflexivity.
Qed.

(** A code that follows a slash is the leftmost match when nothing before
    it matches and what follows it is the end, a slash or a question
    mark. *)
Lemma asinPatternMatch_segment (pre code rest : string) :
  asinTest code = true ->
  matchAsinEnd rest = true ->
  asinPatternMatch (pre +:+ "/") = None ->
  asinPatternMatch (pre +:+ "/" +:+ code +:+ rest) = Some code.
Proof.
  intros Hcode Hend. induction pre as [|c pre IH]; intros Hpre.
  - change ("" +:+ "/" +:+ code +:+ rest) with (String "/" (code +:+ rest)).
    rewrite asinPatternMatch_cons, matchAsinAt_cons.
    rewrite (matchAsinChars_token _ _ _ _ (asinTest_spec _ Hcode) rest), Hend.
    reflexivity.
  - rewrite append_cons, asinPatternMatch_cons in Hpre.
    destruct (matchAsinAt (String c (pre +:+ "/"))) eqn:Hat; [discriminate|].
    rewrite append_cons, asinPatternMatch_cons.
    change ("/" +:+ code +:+ rest) with (String "/" (code +:+ rest)).
    rewrite matchAsinAt_slash_eq, Hat. apply IH, Hpre.
Qed.

(** A code directly followed by a fragment is not matched, and neither is
    anything after it when the fragment has no slash. *)
Lemma asinPatternMatch_fragment (pre code fragment : string) :
  asinTest code = true ->
  asinPatternMatch (pre +:+ "/") = None ->
  includesChar "/" fragment = false ->
  asinPatternMatch (pre +:+ "/" +:+ code +:+ "#" +:+ fragment) = None.
Proof.
  intros Hcode Hpre Hfrag. induction pre as [|c pre IH].
  - change ("" +:+ "/" +:+ code +:+ "#" +:+ fragment)
      with (String "/" (code +:+ String "#" fragment)).
    rewrite asinPatternMatch_cons, matchAsinAt_cons.
    rewrite (matchAsinChars_token _ _ _ _ (asinTest_spec _ Hcode) (String "#" fragment)).
    cbn [matchAsinEnd Ascii.eqb Bool.eqb orb andb].
    apply asinPatternMatch_no_slash.
    rewrite includesChar_append, (asinTest_no_slash _ Hcode). simpl. exact Hfrag.
  - rewrite append_cons, asinPatternMatch_cons in Hpre.
    destruct (matchAsinAt (String c (pre +:+ "/"))) eqn:Hat; [discriminate|].
    rewrite append_cons, asinPatternMatch_cons.
    change ("/" +:+ code +:+ "#" +:+ fragment)
      with (String "/" (code +:+ "#" +:+ fragment)).
    rewrite matchAsinAt_slash_eq, Hat. apply IH, Hpre.
Qed.

(** C8 (amended): let a URL be made of a prefix, a slash and a code
    accepted by [/^[A-Z0-9]{10}$/], such that the pattern has no match in
    the prefix with that slash.  When the URL ends with the code, or the
    code is followed by a query string that starts with ['?'], both
    [AmazonSource.extractProductId] and [extractAsinFromUrl] return exactly
    that code.  When the code is followed by ['#'] and a fragment without a
    slash, both return null.  On [https://example.com/dp/B01DFKC2SO] the
    result is [B01DFKC2SO] and on [https://example.com/no-code-here] it is
    null. *)
Theorem C8_extract_final_segment (pre code rest : string) :
  asinTest code = true ->
  asinPatternMatch (pre +:+ "/") = None ->
  (rest = "" \/ exists query : string, rest = "?" +:+ query) ->
  (AmazonSource.extractProductId (pre +:+ "/" +:+ code +:+ rest) = Some code
   /\ extractAsinFromUrl (pre +:+ "/" +:+ code +:+ rest) = Some code)
  /\ (forall fragment : string,
        includesChar "/" fragment = false ->
        AmazonSource.extractProductId (pre +:+ "/" +:+ code +:+ "#" +:+ fragment) = None
        /\ extractAsinFromUrl (pre +:+ "/" +:+ code +:+ "#" +:+ fragment) = None)
  /\ AmazonSource.extractProductId "https://example.com/dp/B01DFKC2SO" = Some "B01DFKC2SO"
  /\ AmazonSource.extractProductId "https://example.com/no-code-here" = None.
Proof.
  intros Hcode Hpre Hrest.
  unfold AmazonSource.extractProductId, extractAsinFromUrl.
  split; [|split; [|split; reflexivity]].
  - assert (Hend : matchAsinEnd rest = true)
      by (destruct Hrest as [->|[query ->]]; reflexivity).
    split; apply asinPatternMatch_segment; assumption.
  - intros fragment Hfrag. split; apply asinPatternMatch_fragment; assumption.
Qed.

Lemma C8_extract_final_segment_witness :
  (AmazonSource.extractProductId "https://www.amazon.com/dp/B01DFKC2SO" = Some "B01DFKC2SO"
   /\ AmazonSource.extractProductId "https://www.amazon.com/dp/B01DFKC2SO?th=1&psc=1"
      = Some "B01DFKC2SO")
  /\ AmazonSource.extractProductId "https://example.com/dp/B01DFKC2SO#reviews" = None.
Proof.
  split; [split|].
  - destruct (C8_extract_final_segment "https://www.amazon.com/dp" "B01DFKC2SO" ""
                eq_refl eq_refl (or_introl eq_refl)) as [[Hcode _] _].
    exact Hcode.
  - destruct (C8_extract_final_segment "https://www.amazon.com/dp" "B01DFKC2SO"
                "?th=1&psc=1" eq_refl eq_refl
                (or_intror (ex_intro _ "th=1&psc=1" eq_refl))) as [[Hcode _] _].
    exact Hcode.
  - destruct (C8_extract_final_segment "https://example.com/dp" "B01DFKC2SO" ""
                eq_refl eq_refl (or_introl eq_refl)) as (_ & Hfragment & _).
    destruct (Hfragment "reviews" eq_refl) as [Hnull _]. exact Hnull.
Defined.

(** X1: whatever [extractProductId] returns occurs in the URL right after a
    slash, is accepted by [/^[A-Z0-9]{10}$/], is followed by a slash, a
    question mark or the end of the URL, and is the leftmost such
    occurrence. *)
Theorem X1_extracted_id_occurs_in_url (url tok : string) :
  AmazonSource.extractProductId url = Some tok ->
  exists pre rest : string,
    url = pre +:+ "/" +:+ tok +:+ rest
    /\ asinTest tok = true
    /\ matchAsinEnd rest = true
    /\ asinPatternMatch (pre +:+ "/") = None.
Proof. apply asinPatternMatch_occurrence. Qed.

Lemma X1_extracted_id_occurs_in_url_witness :
  exists pre rest : string,
    "https://www.amazon.com/Product-Name/dp/B01DFKC2SO/ref=sr_1_1"
    = pre +:+ "/" +:+ "B01DFKC2SO" +:+ rest
    /\ asinTest "B01DFKC2SO" = true
    /\ matchAsinEnd rest = true
    /\ asinPatternMatch (pre +:+ "/") = None.
Proof.
  apply (X1_extracted_id_occurs_in_url
           "https://www.amazon.com/Product-Name/dp/B01DFKC2SO/ref=sr_1_1" "B01DFKC2SO").
  reflexivity.
Defined.

(** X2: a code that [/^[A-Z0-9]{10}$/] accepts is extracted from any URL in
    which it follows a slash and is followed by a slash, a question mark or
    the end, provided the pattern has no match before it. *)
Theorem X2_extract_segment_before_suffix (pre code rest : string) :
  asinTest code = true ->
  matchAsinEnd rest = true ->
  asinPatternMatch (pre +:+ "/") = None ->
  AmazonSource.extractProductId (pre +:+ "/" +:+ code +:+ rest) = Some code.
Proof.
  intros Hcode Hend. unfold AmazonSource.extractProductId.
  induction pre as [|c pre IH]; intros Hpre.
  - change ("" +:+ "/" +:+ code +:+ rest) with (String "/" (code +:+ rest)).
    rewrite asinPatternMatch_cons, matchAsinAt_cons.
    rewrite (matchAsinChars_token _ _ _ _ (asinTest_spec _ Hcode) rest), Hend.
    reflexivity.
  - rewrite append_cons in Hpre. rewrite asinPatternMatch_cons in Hpre.
    destruct (matchAsinAt (String c (pre +:+ "/"))) eqn:Hat; [discriminate|].
    rewrite append_cons, asinPatternMatch_cons.
    change ("/" +:+ code +:+ rest) with (String "/" (code +:+ rest)).
    rewrite matchAsinAt_slash_eq, Hat. apply IH, Hpre.
Qed.

Lemma X2_extract_segment_before_suffix_witness :
  AmazonSource.extractProductId
    ("https://www.amazon.com/gp/product" +:+ "/" +:+ "B01DFKC2SO" +:+ "?th=1&psc=1")
  = Some "B01DFKC2SO".
Proof.
  apply (X2_extract_segment_before_suffix "https://www.amazon.com/gp/product"
           "B01DFKC2SO" "?th=1&psc=1"); reflexivity.
Defined.

(** X3: [validateIdentifier identifier false] accepts exactly the strings
    of ten characters that are all in [[A-Z0-9]]. *)
Theorem X3_bare_code_validation (identifier : string) :
  AmazonSource.validateIdentifier identifier false = true
  <-> String.length identifier = 10 /\ allAsinChars identifier = true.
Proof.
  simpl. rewrite <- matchAsinChars_shape. split.
  - apply asinTest_spec.
  - intros H. unfold asinTest. rewrite H. reflexivity.
Qed.

(** The locator of an identifier that passed validation. *)
Lemma validated_locator_shape (identifier : string) (isUrl : bool) :
  AmazonSource.validateIdentifier identifier isUrl = true ->
  exists code : string,
    asinTest code = true
    /\ AmazonSource.createProductLocator identifier isUrl = "amazon:" +:+ code
    /\ (isUrl = true -> AmazonSource.extractProductId identifier = Some code).
Proof.
  unfold AmazonSource.validateIdentifier, AmazonSource.createProductLocator,
    AmazonSource.extractProductId.
  destruct isUrl.
  - destruct (asinPatternMatch identifier) as [asin|] eqn:Hext; [|discriminate].
    intros _. destruct (asinPatternMatch_occurrence _ _ Hext)
      as (pre & rest & _ & Hvalid & _).
    exists asin. split; [exact Hvalid|]. split; [|reflexivity].
    case_bool_decide as Hempty; [|reflexivity].
    subst asin. discriminate Hvalid.
  - intros H. exists identifier. split; [exact H|]. split; [reflexivity|discriminate].
Qed.

(** X4: an identifier that [validateIdentifier] accepts, as a URL or as a
    bare code, always gives a locator made of ["amazon:"] and a code that
    [/^[A-Z0-9]{10}$/] accepts; for a URL that code is the extracted one. *)
Theorem X4_validated_identifier_locator (identifier : string) (isUrl : bool) :
  AmazonSource.validateIdentifier identifier isUrl = true ->
  exists code : string,
    asinTest code = true
    /\ AmazonSource.createProductLocator identifier isUrl = "amazon:" +:+ code
    /\ (isUrl = true -> AmazonSource.extractProductId identifier = Some code).
Proof. apply validated_locator_shape. Qed.

Lemma X4_validated_identifier_locator_witness :
  exists code : string,
    asinTest code = true
    /\ AmazonSource.createProductLocator "https://www.amazon.com/dp/B01DFKC2SO" true
       = "amazon:" +:+ code
    /\ (true = true ->
        AmazonSource.extractProductId "https://www.amazon.com/dp/B01DFKC2SO" = Some code).
Proof.
  apply (X4_validated_identifier_locator "https://www.amazon.com/dp/B01DFKC2SO" true).
  reflexivity.
Defined.

(** X5: the legacy [createProductLocator] and the one of [AmazonSource]
    agree on a bare identifier; on a URL they agree exactly when no code can
    be extracted from it, since the legacy function keeps the whole URL. *)
Theorem X5_legacy_locator_differs_on_urls (identifier : string) :
  createProductLocator identifier false
  = AmazonSource.createProductLocator identifier false
  /\ (createProductLocator identifier true
      = AmazonSource.createProductLocator identifier true
      <-> AmazonSource.extractProductId identifier = None).
Proof.
  split; [reflexivity|].
  unfold createProductLocator, AmazonSource.createProductLocator,
    AmazonSource.extractProductId.
  destruct (asinPatternMatch identifier) as [asin|] eqn:Hext; [|tauto].
  split; [|discriminate].
  case_bool_decide as Hempty; intros Heq; exfalso.
  - subst asin. apply asinPatternMatch_occurrence in Hext as (_ & _ & _ & H & _).
    discriminate H.
  - apply (inj (String.app "amazon:")) in Heq. subst asin.
    apply asinPatternMatch_occurrence in Hext as (pre & rest & Hurl & _).
    apply (f_equal String.length) in Hurl.
    rewrite !string_length_append in Hurl. simpl in Hurl. lia.
Qed.

(** * Further properties of the order gateway *)

Section MoreGatewayFacts.

Lemma union_singleton_present (m : gmap string JValue) (k : string) (v x : JValue) :
  m !! k = Some v -> m ∪ {[ k := x ]} = m.
Proof.
  intros Hk. apply map_eq. intros i. rewrite lookup_union.
  destruct (decide (i = k)) as [->|Hne].
  - rewrite Hk, lookup_singleton_eq. reflexivity.
  - assert (Hki : k <> i) by (intros Heq; apply Hne; symmetry; exact Heq).
    rewrite (lookup_singleton_ne k i x Hki). destruct (m !! i); reflexivity.
Qed.

Lemma startsWith_production (apiKey : string) :
  negb (String.eqb apiKey "") && startsWith apiKey "sk_production_"
  = startsWith apiKey "sk_production_".
Proof. destruct apiKey; reflexivity. Qed.

Lemma startsWith_append (p rest : string) : startsWith (p +:+ rest) p = true.
Proof.
  unfold startsWith. induction p as [|c p IH]; [destruct rest; reflexivity|].
  rewrite append_cons. simpl. destruct (ascii_dec c c); [exact IH|contradiction].
Qed.

Lemma getSource_amazon_only (name : string) :
  name <> "amazon" -> getSource name = None.
Proof.
  intros Hne. unfold getSource, sourceRegistry, registerSource.
  change (ProductSource.name AmazonSource) with "amazon".
  rewrite lookup_insert_ne by (intros Heq; apply Hne; symmetry; exact Heq).
  apply lookup_empty.
Qed.

End MoreGatewayFacts.

(** X6: without a chosen chain the payment method follows the API key the
    same way the base URL does: a key that starts with [sk_production_]
    gives the production API and [polygon], whose endpoint in
    [processPayment] is the Polygon mainnet RPC; any other key gives the
    staging API and [polygon-amoy], whose endpoint is the Amoy RPC.  A
    non-empty chosen chain is used as it is. *)
Theorem X6_key_selects_api_and_chain (apiKey : string) :
  (if startsWith apiKey "sk_production_"
   then getApiBaseUrl apiKey = "https://www.crossmint.com/api/2022-06-09"
        /\ getPaymentMethod apiKey None = "polygon"
        /\ rpcUrlOf (getPaymentMethod apiKey None) = "https://polygon-rpc.com/"
   else getApiBaseUrl apiKey = "https://staging.crossmint.com/api/2022-06-09"
        /\ getPaymentMethod apiKey None = "polygon-amoy"
        /\ rpcUrlOf (getPaymentMethod apiKey None)
           = "https://rpc-amoy.polygon.technology/")
  /\ (forall chain : string, chain <> "" -> getPaymentMethod apiKey (Some chain) = chain).
Proof.
  split.
  - unfold getApiBaseUrl, getPaymentMethod. rewrite startsWith_production.
    destruct (startsWith apiKey "sk_production_"); repeat split.
  - intros chain Hne. unfold getPaymentMethod.
    apply String.eqb_neq in Hne. rewrite Hne. reflexivity.
Qed.

(** X7: on any object the service returns, the normalization succeeds,
    keeps every top-level field with its value, and adds no key other than
    [order]. *)
Theorem X7_normalize_keeps_fields (fields : gmap string JValue) :
  exists res : gmap string JValue,
    Gateway.normalize (JObj fields) = inr (JObj res)
    /\ (forall (k : string) (v : JValue), fields !! k = Some v -> res !! k = Some v)
    /\ (forall k : string, k <> "order" -> res !! k = fields !! k).
Proof.
  unfold Gateway.normalize. simpl.
  destruct (negb (jsTruthyProp (fields !! "order"))); [|eauto].
  destruct (fields !! "orderId") as [orderId|]; [|eauto].
  destruct (jsTruthy orderId); [|eauto].
  eexists. split; [reflexivity|]. split.
  - intros k v Hk. apply lookup_union_Some_l, Hk.
  - intros k Hne. assert (Hok : "order" <> k)
      by (intros Heq; apply Hne; symmetry; exact Heq).
    rewrite lookup_union, (lookup_singleton_ne "order" k _ Hok).
    destruct (fields !! k); reflexivity.
Qed.

(** X8: normalizing is idempotent: a value [getOrderStatus] has normalized
    is left as it is by a second normalization. *)
Theorem X8_normalize_idempotent (data res : JValue) :
  Gateway.normalize data = inr res -> Gateway.normalize res = inr res.
Proof.
  unfold Gateway.normalize at 1.
  destruct data as [|b|n|s|items|fields]; try discriminate;
    try (intros [= <-]; reflexivity).
  simpl.
  destruct (negb (jsTruthyProp (fields !! "order"))) eqn:Horder;
    [|intros [= <-]; unfold Gateway.normalize; simpl; rewrite Horder; reflexivity].
  destruct (fields !! "orderId") as [orderId|] eqn:Hid;
    [|intros [= <-]; unfold Gateway.normalize; simpl; rewrite Horder, Hid; reflexivity].
  destruct (jsTruthy orderId) eqn:Htrue;
    [|intros [= <-]; unfold Gateway.normalize; simpl;
      rewrite Horder, Hid, Htrue; reflexivity].
  intros [= <-]. unfold Gateway.normalize. simpl.
  destruct (fields !! "order") as [v|] eqn:Hv.
  - rewrite (union_singleton_present _ _ _ _ Hv), Hv.
    rewrite Horder, Hid, Htrue.
    rewrite (union_singleton_present _ _ _ _ Hv). reflexivity.
  - rewrite lookup_union_r by exact Hv. rewrite lookup_singleton_eq. reflexivity.
Qed.

Lemma X8_normalize_idempotent_witness :
  exists res : JValue,
    Gateway.normalize (JObj (flattenedResponse "payment")) = inr res
    /\ Gateway.normalize res = inr res.
Proof.
  eexists. split; [reflexivity|].
  apply (X8_normalize_idempotent (JObj (flattenedResponse "payment"))). reflexivity.
Defined.

(** X9: in test mode, or for an order identifier that starts with
    [mock-order-], [getOrderStatus] answers with the mock order whatever
    the service would say: phase [payment], quote status [valid], the
    identifier it was given, and no payment. *)
Theorem X9_mock_status_ignores_service
    (nodeEnvTest : bool) (axiosGet : string -> HttpResult) (orderId apiKey : string) :
  nodeEnvTest || startsWith orderId "mock-order-" = true ->
  exists order : gmap string JValue,
    Gateway.getOrderStatus nodeEnvTest axiosGet orderId apiKey
    = inr (JObj {[ "order" := JObj order ]})
    /\ order !! "orderId" = Some (JStr orderId)
    /\ order !! "phase" = Some (JStr "payment")
    /\ order !! "quote" = Some (JObj {[ "status" := JStr "valid" ]})
    /\ order !! "payment" = None.
Proof.
  intros Hmock. unfold Gateway.getOrderStatus. rewrite Hmock.
  eexists. split; [reflexivity|].
  split; [apply lookup_insert_eq|]. repeat split.
Qed.

Lemma X9_mock_status_ignores_service_witness :
  exists order : gmap string JValue,
    Gateway.getOrderStatus false (fun _ => HttpNoResponse "Error: offline")
      "mock-order-1700000000000" "sk_staging_key"
    = inr (JObj {[ "order" := JObj order ]})
    /\ order !! "orderId" = Some (JStr "mock-order-1700000000000")
    /\ order !! "phase" = Some (JStr "payment")
    /\ order !! "quote" = Some (JObj {[ "status" := JStr "valid" ]})
    /\ order !! "payment" = None.
Proof.
  apply (X9_mock_status_ignores_service false (fun _ => HttpNoResponse "Error: offline")
           "mock-order-1700000000000" "sk_staging_key").
  reflexivity.
Defined.

(** * Properties of order creation *)

Section OrderFacts.

Variable env : ProcessEnv.
Variable now : N.
Variable chain : ChainClient.
Variables axiosPost axiosPatch : string -> JValue -> OrderReply.

Lemma getSource_Some (name : string) (productSource : ProductSource.t) :
  getSource name = Some productSource -> name = "amazon" /\ productSource = AmazonSource.
Proof.
  destruct (decide (name = "amazon")) as [->|Hne].
  - intros [= <-]. auto.
  - rewrite (getSource_amazon_only _ Hne). discriminate.
Qed.

(** The requests of [createOrder]: none, or one POST whose locator names a
    valid code. *)
Lemma createOrder_requests (options : OrderOptions.t) :
  snd (createOrder env now chain axiosPost options) = []
  \/ exists (code : string) (payerAddress : option string),
       asinTest code = true
       /\ snd (createOrder env now chain axiosPost options)
          = [ HttpPost (getApiBaseUrl (OrderOptions.apiKey options) +:+ "/orders")
                (createOrderBody ("amazon:" +:+ code)
                   (getPaymentMethod (OrderOptions.apiKey options)
                      (OrderOptions.chain options))
                   payerAddress
                   (createOrderRecipient (OrderOptions.email options)
                      (OrderOptions.shippingAddress options)))
                (OrderOptions.apiKey options) ].
Proof.
  unfold createOrder.
  destruct (getSource (OrderOptions.source options)) as [productSource|] eqn:Hsrc;
    [|left; reflexivity].
  apply getSource_Some in Hsrc as [_ ->].
  change (ProductSource.validateIdentifier AmazonSource)
    with AmazonSource.validateIdentifier.
  change (ProductSource.createProductLocator AmazonSource)
    with AmazonSource.createProductLocator.
  destruct (AmazonSource.validateIdentifier _ _) eqn:Hvalid; [|left; reflexivity].
  destruct (validated_locator_shape _ _ Hvalid) as (code & Hcode & -> & _).
  cbn [negb].
  destruct (strTruthy (PRIVATE_KEY env)).
  - destruct (getWalletAddressFromPrivateKey chain _) as [msg|address];
      [left; reflexivity|].
    case_bool_decide; [left; reflexivity|].
    right. exists code, (Some address). split; [exact Hcode|].
    destruct (axiosPost _ _); reflexivity.
  - case_bool_decide; [left; reflexivity|].
    right. exists code, None. split; [exact Hcode|].
    destruct (axiosPost _ _); reflexivity.
Qed.

(** In test mode [createOrder] sends nothing, and what it returns is the
    mock order. *)
Lemma createOrder_test_mode (options : OrderOptions.t) :
  NODE_ENV env = Some "test" ->
  snd (createOrder env now chain axiosPost options) = []
  /\ forall orderResponse : OrderResponse.t,
       fst (createOrder env now chain axiosPost options) = inr orderResponse ->
       orderResponse
       = {| OrderResponse.orderId := "mock-order-" +:+ pretty now;
            OrderResponse.quoteStatus :=
              if bool_decide (is_Some (OrderOptions.shippingAddress options))
              then "valid" else "requires-physical-address" |}.
Proof.
  intros Htest. unfold createOrder.
  destruct (getSource _) as [productSource|]; [|split; [reflexivity|discriminate]].
  destruct (negb _); [split; [reflexivity|discriminate]|].
  destruct (strTruthy (PRIVATE_KEY env)).
  - destruct (getWalletAddressFromPrivateKey chain _) as [msg|address];
      [split; [reflexivity|discriminate]|].
    rewrite bool_decide_eq_true_2 by exact Htest.
    split; [reflexivity|]. intros r [= <-]. reflexivity.
  - rewrite bool_decide_eq_true_2 by exact Htest.
    split; [reflexivity|]. intros r [= <-]. reflexivity.
Qed.

End OrderFacts.

(** X10: [createOrder] rejects an unknown source and an identifier that
    fails validation before it sends anything: the error is thrown and no
    request is made, whatever the environment. *)
Theorem X10_createOrder_rejects_before_request
    (env : ProcessEnv) (now : N) (chain : ChainClient)
    (axiosPost : string -> JValue -> OrderReply) (options : OrderOptions.t) :
  (OrderOptions.source options <> "amazon" ->
     createOrder env now chain axiosPost options
     = (inl (UnsupportedSource (OrderOptions.source options)), []))
  /\ (OrderOptions.source options = "amazon" ->
      AmazonSource.validateIdentifier (OrderOptions.productIdentifier options)
        (OrderOptions.isUrl options) = false ->
      createOrder env now chain axiosPost options
      = (inl (InvalidIdentifier "amazon" (OrderOptions.productIdentifier options)), [])).
Proof.
  split.
  - intros Hne. unfold createOrder. rewrite (getSource_amazon_only _ Hne). reflexivity.
  - intros Hsrc Hinvalid. unfold createOrder. rewrite Hsrc. cbv zeta.
    change (getSource "amazon") with (Some AmazonSource). cbv beta iota.
    change (ProductSource.validateIdentifier AmazonSource)
      with AmazonSource.validateIdentifier.
    rewrite Hinvalid. reflexivity.
Qed.

Lemma X10_createOrder_rejects_before_request_witness :
  createOrder sampleEnv 0%N sampleChain (fun _ _ => OrderNoResponse "Error: offline")
    (sampleOptions "B01DFKC2SO" true None)
  = (inl (InvalidIdentifier "amazon" "B01DFKC2SO"), []).
Proof.
  apply (X10_createOrder_rejects_before_request sampleEnv 0%N sampleChain
           (fun _ _ => OrderNoResponse "Error: offline")
           (sampleOptions "B01DFKC2SO" true None)); reflexivity.
Defined.

(** X11: with [NODE_ENV] set to [test], [buyProductWithCrypto] sends no
    request at all; when it returns, the order identifier starts with
    [mock-order-], the status is [valid] exactly when a shipping address
    was given, and [getOrderStatus] answers for that identifier with the
    mock order without asking the service, in test mode or not. *)
Theorem X11_test_mode_sends_nothing
    (env : ProcessEnv) (now : N) (chain : ChainClient)
    (axiosPost axiosPatch : string -> JValue -> OrderReply) (options : OrderOptions.t) :
  NODE_ENV env = Some "test" ->
  snd (buyProductWithCrypto env now chain axiosPost axiosPatch options) = []
  /\ forall result : PurchaseResult,
       fst (buyProductWithCrypto env now chain axiosPost axiosPatch options) = inr result ->
       startsWith (resultOrderId result) "mock-order-" = true
       /\ resultStatus result
          = (if bool_decide (is_Some (OrderOptions.shippingAddress options))
             then "valid" else "requires-physical-address")
       /\ forall (nodeEnvTest : bool) (axiosGet : string -> HttpResult) (apiKey : string),
            Gateway.getOrderStatus nodeEnvTest axiosGet (resultOrderId result) apiKey
            = inr (Gateway.mockStatus (resultOrderId result)).
Proof.
  intros Htest. unfold buyProductWithCrypto.
  destruct (createOrder_test_mode env now chain axiosPost options Htest) as [Hreq Hres].
  destruct (createOrder env now chain axiosPost options) as [[e|orderResponse] requests];
    simpl in Hreq, Hres; subst requests.
  { split; [reflexivity|discriminate]. }
  rewrite (Hres orderResponse eq_refl). simpl.
  assert (Hmock : forall (nodeEnvTest : bool) (axiosGet : string -> HttpResult)
                    (apiKey : string),
            Gateway.getOrderStatus nodeEnvTest axiosGet ("mock-order-" +:+ pretty now) apiKey
            = inr (Gateway.mockStatus ("mock-order-" +:+ pretty now))).
  { intros nodeEnvTest axiosGet apiKey. unfold Gateway.getOrderStatus.
    rewrite startsWith_append, orb_true_r. reflexivity. }
  destruct (OrderOptions.shippingAddress options) as [a|].
  - rewrite bool_decide_eq_true_2 by eauto. simpl.
    split; [reflexivity|]. intros result [= <-]. cbn [resultOrderId resultStatus].
    split; [apply startsWith_append|]. auto.
  - rewrite bool_decide_eq_false_2 by (intros [? ?]; discriminate). simpl.
    split; [reflexivity|]. intros result [= <-]. cbn [resultOrderId resultStatus].
    split; [apply startsWith_append|]. auto.
Qed.

Lemma X11_test_mode_sends_nothing_witness :
  snd (buyProductWithCrypto {| PRIVATE_KEY := None; NODE_ENV := Some "test" |}
         1700000000000%N sampleChain
         (fun _ _ => OrderNoResponse "Error: offline")
         (fun _ _ => OrderNoResponse "Error: offline")
         (sampleOptions "B01DFKC2SO" false (Some sampleAddress))) = [].
Proof.
  apply (X11_test_mode_sends_nothing {| PRIVATE_KEY := None; NODE_ENV := Some "test" |}
           1700000000000%N sampleChain
           (fun _ _ => OrderNoResponse "Error: offline")
           (fun _ _ => OrderNoResponse "Error: offline")
           (sampleOptions "B01DFKC2SO" false (Some sampleAddress))).
  reflexivity.
Defined.

(** X12: [createOrder] sends at most one request, and when it sends one it
    is a POST to [<base URL>/orders] under the caller's API key whose
    product locator is ["amazon:"] followed by a code that
    [/^[A-Z0-9]{10}$/] accepts, with the payment method picked by
    [getPaymentMethod] and currency [usdc]. *)
Theorem X12_createOrder_request
    (env : ProcessEnv) (now : N) (chain : ChainClient)
    (axiosPost : string -> JValue -> OrderReply) (options : OrderOptions.t) :
  snd (createOrder env now chain axiosPost options) = []
  \/ exists (code : string) (body payment : gmap string JValue),
       asinTest code = true
       /\ snd (createOrder env now chain axiosPost options)
          = [ HttpPost (getApiBaseUrl (OrderOptions.apiKey options) +:+ "/orders")
                (JObj body) (OrderOptions.apiKey options) ]
       /\ body !! "lineItems"
          = Some (JArr [JObj {[ "productLocator" := JStr ("amazon:" +:+ code) ]}])
       /\ body !! "payment" = Some (JObj payment)
       /\ payment !! "method"
          = Some (JStr (getPaymentMethod (OrderOptions.apiKey options)
                          (OrderOptions.chain options)))
       /\ payment !! "currency" = Some (JStr "usdc").
Proof.
  destruct (createOrder_requests env now chain axiosPost options)
    as [Hnone|(code & payerAddress & Hcode & Hreq)]; [left; exact Hnone|].
  right. rewrite Hreq. unfold createOrderBody.
  destruct (createOrderRecipient _ _) as [r|]; destruct payerAddress as [address|];
    eexists code, _, _; (split; [exact Hcode|]); (split; [reflexivity|]);
    repeat split; simplify_map_eq; reflexivity.
Qed.

(** X13: the PATCH of [updateOrderWithShippingAddress] carries the same
    [physicalAddress] object as the POST of [createOrder]: the six required
    fields of the address, and [line2] only when it is a non-empty string. *)
Theorem X13_address_payload (a : ShippingAddress) (email : string) :
  updateOrderBody a
  = JObj {[ "recipient" := JObj {[ "physicalAddress" := JObj (createOrderAddress a) ]} ]}
  /\ (exists recipient : gmap string JValue,
        createOrderRecipient email (Some a) = Some recipient
        /\ recipient !! "physicalAddress" = Some (JObj (createOrderAddress a)))
  /\ (createOrderAddress a !! "name" = Some (JStr (addressName a))
      /\ createOrderAddress a !! "line1" = Some (JStr (line1 a))
      /\ createOrderAddress a !! "city" = Some (JStr (city a))
      /\ createOrderAddress a !! "state" = Some (JStr (state a))
      /\ createOrderAddress a !! "postalCode" = Some (JStr (postalCode a))
      /\ createOrderAddress a !! "country" = Some (JStr (country a)))
  /\ createOrderAddress a !! "line2"
     = match line2 a with
       | Some l => if String.eqb l "" then None else Some (JStr l)
       | None => None
       end.
Proof.
  split; [reflexivity|]. split; [|split].
  - unfold createOrderRecipient. rewrite bool_decide_eq_true_2 by eauto.
    rewrite orb_true_r. eexists. split; [reflexivity|]. apply lookup_insert_eq.
  - unfold createOrderAddress.
    destruct (strTruthy (line2 a)); repeat split; simplify_map_eq; reflexivity.
  - unfold createOrderAddress, strTruthy.
    destruct (line2 a) as [l|]; [destruct (String.eqb l "")|]; simplify_map_eq;
      reflexivity.
Qed.

(** X14: [buyProductWithCrypto] sends the requests of [createOrder] (at
    most one POST) followed by at most one PATCH; the PATCH is sent only
    when the options hold a shipping address and the created order came
    back with quote status [requires-physical-address], and it goes to
    [<base URL>/orders/<orderId>] for the identifier the POST returned. *)
Theorem X14_buyProductWithCrypto_requests
    (env : ProcessEnv) (now : N) (chain : ChainClient)
    (axiosPost axiosPatch : string -> JValue -> OrderReply) (options : OrderOptions.t) :
  exists patches : list HttpRequest,
    snd (buyProductWithCrypto env now chain axiosPost axiosPatch options)
    = snd (createOrder env now chain axiosPost options) ++ patches
    /\ List.length (snd (createOrder env now chain axiosPost options)) <= 1
    /\ forallb isPost (snd (createOrder env now chain axiosPost options)) = true
    /\ (patches = []
        \/ exists (a : ShippingAddress) (orderResponse : OrderResponse.t),
             OrderOptions.shippingAddress options = Some a
             /\ fst (createOrder env now chain axiosPost options) = inr orderResponse
             /\ OrderResponse.quoteStatus orderResponse = "requires-physical-address"
             /\ patches
                = [ HttpPatch (getApiBaseUrl (OrderOptions.apiKey options) +:+ "/orders/"
                                 +:+ OrderResponse.orderId orderResponse)
                      (updateOrderBody a) (OrderOptions.apiKey options) ]).
Proof.
  assert (Hposts : List.length (snd (createOrder env now chain axiosPost options)) <= 1
                   /\ forallb isPost (snd (createOrder env now chain axiosPost options))
                      = true).
  { destruct (createOrder_requests env now chain axiosPost options)
      as [->|(code & payer & _ & ->)]; simpl; auto. }
  destruct Hposts as [Hlen Hpost]. unfold buyProductWithCrypto.
  destruct (createOrder env now chain axiosPost options) as [[e|orderResponse] requests];
    simpl in *.
  { exists []. rewrite app_nil_r. auto. }
  destruct (String.eqb_spec (OrderResponse.quoteStatus orderResponse)
              "requires-physical-address") as [Hstatus|_];
    [|exists []; rewrite app_nil_r; auto].
  destruct (OrderOptions.shippingAddress options) as [a|];
    [|exists []; rewrite app_nil_r; auto].
  unfold updateOrderWithShippingAddress.
  exists [ HttpPatch (getApiBaseUrl (OrderOptions.apiKey options) +:+ "/orders/"
                        +:+ OrderResponse.orderId orderResponse)
             (updateOrderBody a) (OrderOptions.apiKey options) ].
  split.
  - destruct (axiosPatch _ _); reflexivity.
  - split; [exact Hlen|]. split; [exact Hpost|]. right.
    exists a, orderResponse. auto.
Qed.

(** X15: [buyAmazonProductWithCrypto] never fails for an unsupported
    source, whatever the [source] field of the options it is given. *)
Theorem X15_buyAmazon_source_supported
    (env : ProcessEnv) (now : N) (chain : ChainClient)
    (axiosPost axiosPatch : string -> JValue -> OrderReply) (options : OrderOptions.t)
    (source : string) :
  fst (buyAmazonProductWithCrypto env now chain axiosPost axiosPatch options)
  <> inl (UnsupportedSource source).
Proof.
  unfold buyAmazonProductWithCrypto, buyProductWithCrypto, createOrder,
    updateOrderWithShippingAddress.
  cbv zeta. cbn [OrderOptions.source OrderOptions.productIdentifier OrderOptions.isUrl
                 OrderOptions.apiKey OrderOptions.email OrderOptions.shippingAddress
                 OrderOptions.chain].
  change (getSource "amazon") with (Some AmazonSource). cbv beta iota.
  repeat case_match; simpl; congruence.
Qed.

(** * Further properties of the poller *)

Section MorePollerFacts.

Variable serviceScript : nat -> GatewayError + StatusResponse.t.
Variables orderId apiKey : string.
Variables maxAttempts delayMs : nat.

Local Abbreviation pollTry' := (pollTry serviceScript orderId apiKey delayMs).
Local Abbreviation pollLoop' := (pollLoop serviceScript orderId apiKey maxAttempts delayMs).

(** [logOnChange] always ends with the current value as the last one
    printed. *)
Lemma logOnChange_eq (label current last : string) (w : World) :
  logOnChange label current last w
  = (current,
     {| trace := trace w ++ (if bool_decide (current <> last)
                             then [Log (label +:+ current)] else []);
        statusCalls := statusCalls w |}).
Proof.
  unfold logOnChange. destruct (decide (current = last)) as [->|Hne].
  - rewrite bool_decide_eq_false_2 by (intros Hc; apply Hc; reflexivity).
    rewrite app_nil_r. destruct w; reflexivity.
  - rewrite bool_decide_eq_true_2 by exact Hne. reflexivity.
Qed.

(** A pass that received [r], in full. *)
Lemma pollTry_pass (vars : PollVars) (w : World) (r : StatusResponse.t) :
  serviceScript (statusCalls w) = inr r ->
  pollTry' vars w
  = (if hasPreparation r then Return r
     else if hasTerminalStatus r then
       Thrown (PaymentStatusError
                 (default "" (paymentStatusOf (StatusResponse.orderOf r))))
     else Normal,
     {| lastPhase := observedPhase r; lastPaymentStatus := observedPaymentStatus r |},
     {| trace := trace w ++ [GetOrder orderId] ++ passLogs vars r
                 ++ (if hasPreparation r || hasTerminalStatus r then []
                     else [Sleep delayMs]);
        statusCalls := S (statusCalls w) |}).
Proof.
  intros H. unfold pollTry, getOrderStatus. rewrite H, !logOnChange_eq.
  unfold passLogs, hasPreparation, hasTerminalStatus, observedPhase,
    observedPaymentStatus, record.
  cbn [trace statusCalls].
  destruct (strTruthy _); [|destruct (isTerminalPaymentStatus _)];
    cbn [orb trace statusCalls]; rewrite <- ?app_assoc, ?app_nil_r; reflexivity.
Qed.

Lemma isPollerEvent_passLogs (vars : PollVars) (r : StatusResponse.t) :
  forallb (isPollerEvent orderId delayMs) (passLogs vars r) = true.
Proof. unfold passLogs. repeat case_bool_decide; reflexivity. Qed.

(** One pass records events of the poller only. *)
Lemma pollTry_events (vars : PollVars) (w : World) :
  exists evs : list Event,
    trace (snd (pollTry' vars w)) = trace w ++ evs
    /\ forallb (isPollerEvent orderId delayMs) evs = true.
Proof.
  destruct (serviceScript (statusCalls w)) as [e|r] eqn:H.
  - rewrite (pollTry_error _ _ _ _ _ _ _ H). exists [GetOrder orderId]. simpl.
    rewrite String.eqb_refl. auto.
  - rewrite (pollTry_pass _ _ _ H). eexists. split; [reflexivity|].
    simpl. rewrite String.eqb_refl, forallb_app, isPollerEvent_passLogs. simpl.
    destruct (_ || _); simpl; [reflexivity|]. rewrite Nat.eqb_refl. reflexivity.
Qed.

Lemma pollLoop_events (n attempts : nat) (vars : PollVars) (w : World) :
  maxAttempts - attempts = n ->
  exists evs : list Event,
    trace (snd (pollLoop' attempts vars w)) = trace w ++ evs
    /\ forallb (isPollerEvent orderId delayMs) evs = true.
Proof.
  revert attempts vars w. induction n as [|n IH]; intros attempts vars w Hn;
    rewrite pollLoop_step;
    (destruct (Nat.ltb_spec attempts maxAttempts) as [Hlt|Hge];
     [|exists []; rewrite app_nil_r; auto]); [lia|].
  destruct (pollTry_events vars w) as (evs & Htr & Hevs).
  destruct (pollTry' vars w) as [[c vars'] w1]. simpl in Htr.
  destruct c as [|r|e].
  - destruct (IH (S attempts) vars' w1 ltac:(lia)) as (evs' & Htr' & Hevs').
    exists (evs ++ evs'). rewrite Htr', Htr, app_assoc, forallb_app, Hevs, Hevs'. auto.
  - exists evs. auto.
  - destruct (maxAttempts <=? S attempts)%nat; [exists evs; auto|].
    destruct (IH (S attempts) vars' (pollCatch delayMs e w1) ltac:(lia))
      as (evs' & Htr' & Hevs').
    exists (evs ++ [LogError "Error polling order status: " e; Sleep delayMs] ++ evs').
    rewrite Htr'. unfold pollCatch. rewrite !trace_record, Htr.
    rewrite !forallb_app, Hevs, Hevs'. simpl. rewrite Nat.eqb_refl.
    split; [|reflexivity]. rewrite <- !app_assoc. reflexivity.
Qed.

(** How a run can end, from any state of the loop. *)
Lemma pollLoop_outcome (n attempts : nat) (vars : PollVars) (w : World) :
  maxAttempts - attempts = n -> attempts <= maxAttempts ->
  match pollLoop' attempts vars w with
  | (Ok r, w') =>
      hasPreparation r = true
      /\ statusCalls w < statusCalls w' <= statusCalls w + n
      /\ serviceScript (statusCalls w' - 1) = inr r
  | (Throw e, w') =>
      statusCalls w' = statusCalls w + n
      /\ (e = PreparationNotAvailable maxAttempts
          \/ 0 < n
             /\ match serviceScript (statusCalls w' - 1) with
                | inl ge => e = StatusError ge
                | inr r =>
                    hasPreparation r = false /\ hasTerminalStatus r = true
                    /\ e = PaymentStatusError
                             (default "" (paymentStatusOf (StatusResponse.orderOf r)))
                end)
  end.
Proof.
  revert attempts vars w. induction n as [|n IH]; intros attempts vars w Hn Hle;
    rewrite pollLoop_step;
    destruct (Nat.ltb_spec attempts maxAttempts) as [Hlt|Hge]; try lia.
  { split; [lia|]. left. reflexivity. }
  destruct (serviceScript (statusCalls w)) as [ge|r] eqn:Hscript.
  - rewrite (pollTry_error _ _ _ _ _ _ _ Hscript).
    destruct (Nat.leb_spec maxAttempts (S attempts)) as [Hlast|Hmore].
    + simpl. split; [lia|]. right. split; [lia|].
      rewrite Nat.sub_0_r, Hscript. reflexivity.
    + specialize (IH (S attempts) vars
                    (pollCatch delayMs (StatusError ge) (afterGetOrder orderId w))
                    ltac:(lia) ltac:(lia)).
      simpl in IH.
      destruct (pollLoop' (S attempts) vars _) as [[r'|e'] w'].
      * destruct IH as (Hp & Hc & Hs). repeat split; try assumption; lia.
      * destruct IH as (Hc & He). split; [lia|].
        destruct He as [->|[Hn' He]]; [left; reflexivity|]. right. split; [lia|exact He].
  - rewrite (pollTry_pass _ _ _ Hscript).
    destruct (hasPreparation r) eqn:Hprep.
    { simpl. rewrite Nat.sub_0_r. repeat split; try assumption; lia. }
    destruct (hasTerminalStatus r) eqn:Hterm.
    + destruct (Nat.leb_spec maxAttempts (S attempts)) as [Hlast|Hmore].
      * simpl. split; [lia|]. right. split; [lia|].
        rewrite Nat.sub_0_r, Hscript. auto.
      * match goal with
        | |- context [pollLoop' (S attempts) ?v ?w1] =>
            specialize (IH (S attempts) v w1 ltac:(lia) ltac:(lia));
            destruct (pollLoop' (S attempts) v w1) as [[r'|e'] w']
        end; simpl in IH.
        -- destruct IH as (Hp & Hc & Hs). repeat split; try assumption; lia.
        -- destruct IH as (Hc & He). split; [lia|].
           destruct He as [->|[Hn' He]]; [left; reflexivity|].
           right. split; [lia|exact He].
    + match goal with
      | |- context [pollLoop' (S attempts) ?v ?w1] =>
          specialize (IH (S attempts) v w1 ltac:(lia) ltac:(lia));
          destruct (pollLoop' (S attempts) v w1) as [[r'|e'] w']
      end; simpl in IH.
      * destruct IH as (Hp & Hc & Hs). repeat split; try assumption; lia.
      * destruct IH as (Hc & He). split; [lia|].
        destruct He as [->|[Hn' He]]; [left; reflexivity|].
        right. split; [lia|exact He].
Qed.

End MorePollerFacts.

Section SteadyPolling.

Variable serviceScript : nat -> GatewayError + StatusResponse.t.
Variables orderId apiKey : string.
Variables maxAttempts delayMs : nat.
Variable r : StatusResponse.t.

Hypothesis script_constant : forall i : nat, serviceScript i = inr r.
Hypothesis r_pending : pendingOutcome (inr r) = true.

Lemma strOr_nonempty (s : option string) (d : string) : d <> "" -> strOr s d <> "".
Proof.
  intros Hd. unfold strOr. destruct s as [v|]; [|exact Hd].
  destruct (String.eqb_spec v ""); assumption.
Qed.

(** Once the phase and status of [r] have been printed, every further
    pass is a call and a sleep, until the attempts run out. *)
Lemma pollLoop_steady (n attempts : nat) (w : World) :
  maxAttempts - attempts = n ->
  pollLoop serviceScript orderId apiKey maxAttempts delayMs attempts
    {| lastPhase := observedPhase r; lastPaymentStatus := observedPaymentStatus r |} w
  = (Throw (PreparationNotAvailable maxAttempts),
     {| trace := trace w ++ List.concat (replicate n [GetOrder orderId; Sleep delayMs]);
        statusCalls := statusCalls w + n |}).
Proof using script_constant r_pending.
  revert attempts w. induction n as [|n IH]; intros attempts w Hn;
    rewrite pollLoop_step;
    destruct (Nat.ltb_spec attempts maxAttempts) as [Hlt|Hge]; try lia.
  { simpl. rewrite app_nil_r, Nat.add_0_r. destruct w; reflexivity. }
  rewrite (pollTry_pass _ _ _ _ _ _ _ (script_constant (statusCalls w))).
  pose proof r_pending as Hpend. simpl in Hpend.
  apply andb_true_iff in Hpend as [Hprep Hterm].
  apply negb_true_iff in Hprep, Hterm. rewrite Hprep, Hterm.
  unfold passLogs. cbn [lastPhase lastPaymentStatus].
  rewrite !bool_decide_eq_false_2 by (intros Hc; apply Hc; reflexivity).
  rewrite (IH (S attempts)) by lia. cbn [trace statusCalls orb].
  do 2 f_equal; [|lia]. rewrite <- app_assoc. reflexivity.
Qed.

End SteadyPolling.

(** X16: how [waitForPaymentPreparation] can end.  When it returns, the
    response is the one of its last call, it carries a non-empty serialized
    transaction, and between 1 and [maxAttempts] calls were made.  When it
    throws, exactly [maxAttempts] calls were made, and the error is the
    not-available one or what the last attempt threw: the error of its
    call, or the terminal payment status it saw. *)
Theorem X16_poller_outcomes
    (serviceScript : nat -> GatewayError + StatusResponse.t)
    (orderId apiKey : string) (maxAttempts delayMs : nat) :
  match waitForPaymentPreparation serviceScript orderId apiKey maxAttempts delayMs
          initialWorld with
  | (Ok r, w') =>
      hasPreparation r = true
      /\ 1 <= statusCalls w' <= maxAttempts
      /\ serviceScript (statusCalls w' - 1) = inr r
  | (Throw e, w') =>
      statusCalls w' = maxAttempts
      /\ (e = PreparationNotAvailable maxAttempts
          \/ 0 < maxAttempts
             /\ match serviceScript (maxAttempts - 1) with
                | inl ge => e = StatusError ge
                | inr r =>
                    hasPreparation r = false /\ hasTerminalStatus r = true
                    /\ e = PaymentStatusError
                             (default "" (paymentStatusOf (StatusResponse.orderOf r)))
                end)
  end.
Proof.
  unfold waitForPaymentPreparation.
  pose proof (pollLoop_outcome serviceScript orderId apiKey maxAttempts delayMs
                (maxAttempts - 0) 0 {| lastPhase := ""; lastPaymentStatus := "" |}
                initialWorld eq_refl ltac:(lia)) as H.
  destruct (pollLoop _ _ _ _ _ _ _ _) as [[r|e] w']; simpl in H.
  - destruct H as (Hp & Hc & Hs). repeat split; try assumption; lia.
  - destruct H as (Hc & He). rewrite Nat.sub_0_r in Hc. split; [exact Hc|].
    destruct He as [He|[Hn He]]; [left; exact He|]. right.
    split; [lia|]. rewrite Hc in He. exact He.
Qed.

(** X17: from any world, [waitForPaymentPreparation] only adds calls of
    [getOrderStatus] for its order, console lines and sleeps of [delayMs]:
    it never opens a provider, submits a transaction or waits for a
    receipt. *)
Theorem X17_poller_events
    (serviceScript : nat -> GatewayError + StatusResponse.t)
    (orderId apiKey : string) (maxAttempts delayMs : nat) (w : World) :
  exists evs : list Event,
    trace (snd (waitForPaymentPreparation serviceScript orderId apiKey maxAttempts
                  delayMs w)) = trace w ++ evs
    /\ forallb (isPollerEvent orderId delayMs) evs = true.
Proof.
  unfold waitForPaymentPreparation.
  apply (pollLoop_events _ _ _ _ _ (maxAttempts - 0)). reflexivity.
Qed.

(** X18: a pass of the poller that receives a response ends with the
    observed phase and payment status as the last ones printed; and when
    they are the ones already printed, the pass prints nothing: it adds the
    call, and the sleep when the response is pending. *)
Theorem X18_poller_logs_on_change
    (serviceScript : nat -> GatewayError + StatusResponse.t)
    (orderId apiKey : string) (delayMs : nat)
    (vars : PollVars) (w : World) (r : StatusResponse.t) :
  serviceScript (statusCalls w) = inr r ->
  snd (fst (pollTry serviceScript orderId apiKey delayMs vars w))
  = {| lastPhase := observedPhase r; lastPaymentStatus := observedPaymentStatus r |}
  /\ (lastPhase vars = observedPhase r ->
      lastPaymentStatus vars = observedPaymentStatus r ->
      trace (snd (pollTry serviceScript orderId apiKey delayMs vars w))
      = trace w ++ [GetOrder orderId]
        ++ (if hasPreparation r || hasTerminalStatus r then [] else [Sleep delayMs])).
Proof.
  intros H. rewrite (pollTry_pass _ _ _ _ _ _ _ H). split; [reflexivity|].
  intros Hphase Hstatus. cbn [snd trace]. unfold passLogs.
  rewrite Hphase, Hstatus.
  rewrite !bool_decide_eq_false_2 by (intros Hc; apply Hc; reflexivity).
  reflexivity.
Qed.

Lemma X18_poller_logs_on_change_witness :
  snd (fst (pollTry (scriptOf [] (inr pendingResponse)) "ord-1" "sk_staging_key" 2000
              {| lastPhase := "payment"; lastPaymentStatus := "requires-quote" |}
              initialWorld))
  = {| lastPhase := "payment"; lastPaymentStatus := "requires-quote" |}
  /\ trace (snd (pollTry (scriptOf [] (inr pendingResponse)) "ord-1" "sk_staging_key"
                   2000
                   {| lastPhase := "payment"; lastPaymentStatus := "requires-quote" |}
                   initialWorld))
     = [GetOrder "ord-1"; Sleep 2000].
Proof.
  destruct (X18_poller_logs_on_change (scriptOf [] (inr pendingResponse)) "ord-1"
              "sk_staging_key" 2000
              {| lastPhase := "payment"; lastPaymentStatus := "requires-quote" |}
              initialWorld pendingResponse eq_refl) as [Hvars Htrace].
  split; [exact Hvars|]. exact (Htrace eq_refl eq_refl).
Defined.

(** X19: against an order that stays pending and does not change, a run
    with [maxAttempts >= 1] prints the phase and the payment status once,
    on the first attempt, then only calls and sleeps -- a sleep follows the
    last call too -- and ends with the not-available error after
    [maxAttempts] calls. *)
Theorem X19_unchanged_order_printed_once
    (serviceScript : nat -> GatewayError + StatusResponse.t)
    (orderId apiKey : string) (maxAttempts delayMs : nat) (r : StatusResponse.t) :
  1 <= maxAttempts ->
  (forall i : nat, serviceScript i = inr r) ->
  pendingOutcome (inr r) = true ->
  waitForPaymentPreparation serviceScript orderId apiKey maxAttempts delayMs initialWorld
  = (Throw (PreparationNotAvailable maxAttempts),
     {| trace := [ GetOrder orderId;
                   Log ("Order phase: " +:+ observedPhase r);
                   Log ("Payment status: " +:+ observedPaymentStatus r);
                   Sleep delayMs ]
                 ++ List.concat (replicate (maxAttempts - 1) [GetOrder orderId; Sleep delayMs]);
        statusCalls := maxAttempts |}).
Proof.
  intros Hmax Hconst Hpend. unfold waitForPaymentPreparation.
  rewrite pollLoop_step.
  destruct (Nat.ltb_spec 0 maxAttempts) as [_|Hge]; [|lia].
  rewrite (pollTry_pass _ _ _ _ _ _ _ (Hconst (statusCalls initialWorld))).
  pose proof Hpend as Hpend'. simpl in Hpend'.
  apply andb_true_iff in Hpend' as [Hprep Hterm].
  apply negb_true_iff in Hprep, Hterm. rewrite Hprep, Hterm.
  rewrite (pollLoop_steady serviceScript orderId apiKey maxAttempts delayMs r
             Hconst Hpend (maxAttempts - 1)) by lia.
  unfold passLogs. cbn [lastPhase lastPaymentStatus trace statusCalls initialWorld orb].
  rewrite !bool_decide_eq_true_2
    by (apply strOr_nonempty; discriminate).
  do 2 f_equal. lia.
Qed.

Lemma X19_unchanged_order_printed_once_witness :
  waitForPaymentPreparation (scriptOf [] (inr pendingResponse)) "ord-1" "sk_staging_key"
    3 2000 initialWorld
  = (Throw (PreparationNotAvailable 3),
     {| trace := [ GetOrder "ord-1";
                   Log "Order phase: payment";
                   Log "Payment status: requires-quote";
                   Sleep 2000;
                   GetOrder "ord-1"; Sleep 2000;
                   GetOrder "ord-1"; Sleep 2000 ];
        statusCalls := 3 |}).
Proof.
  apply (X19_unchanged_order_printed_once (scriptOf [] (inr pendingResponse)) "ord-1"
           "sk_staging_key" 3 2000 pendingResponse);
    [lia|intros i; reflexivity|reflexivity].
Defined.

(** * Further properties of the signer *)

Section MoreSignerFacts.

Variable chain : ChainClient.

(** The world after the guards and the two log lines, with the provider
    opened on [rpcUrl]. *)
Lemma processPayment_past_guards (o : Order.t) (privateKey tx : string) (w : World) :
  Payment.status (Order.payment o) <> "crypto-payer-insufficient-funds" ->
  Quote.status (Order.quote o) <> "requires-physical-address" ->
  serializedTransactionOf (Order.payment o) = Some tx -> tx <> "" ->
  processPayment chain (Order.data o) privateKey w
  = let rpcUrl := rpcUrlOf (Payment.method (Order.payment o)) in
    let w3 := {| trace := trace w
                   ++ [ Log ("Payment status: " +:+ Payment.status (Order.payment o));
                        Log ("Payment method: " +:+ Payment.method (Order.payment o));
                        NewProvider rpcUrl ];
                 statusCalls := statusCalls w |} in
    match newWallet chain privateKey with
    | inl msg => (Throw (ChainError msg), w3)
    | inr _ =>
        tryCatch (submitTransaction chain rpcUrl privateKey tx)
          (fun error =>
             _ ← emit (LogError "Error sending transaction:" error); throw error) w3
    end.
Proof.
  intros Hs Hq Htx Hne. unfold processPayment. simpl.
  apply String.eqb_neq in Hs, Hq, Hne. rewrite Hs, Hq, Htx, Hne.
  repeat (rewrite bind_run; change (emit ?ev ?w0) with (Ok tt, record ev w0);
          cbv beta iota).
  assert (Hw3 : record (NewProvider (rpcUrlOf (Payment.method (Order.payment o))))
                  (record (Log ("Payment method: " +:+ Payment.method (Order.payment o)))
                     (record (Log ("Payment status: "
                                   +:+ Payment.status (Order.payment o))) w))
                = {| trace := trace w
                       ++ [ Log ("Payment status: " +:+ Payment.status (Order.payment o));
                            Log ("Payment method: " +:+ Payment.method (Order.payment o));
                            NewProvider (rpcUrlOf (Payment.method (Order.payment o))) ];
                     statusCalls := statusCalls w |}).
  { unfold record. cbn [trace statusCalls]. rewrite <- !app_assoc. reflexivity. }
  rewrite Hw3. destruct (newWallet chain privateKey); reflexivity.
Qed.

(** The [try] block, step by step. *)
Lemma submitTransaction_run (rpcUrl privateKey tx : string) (w : World) :
  submitTransaction chain rpcUrl privateKey tx w
  = match parseTransaction chain tx with
    | inl msg => (Throw (ChainError msg), w)
    | inr parsed =>
        let w1 := record (SendTransaction rpcUrl parsed) w in
        match sendTransaction chain rpcUrl privateKey parsed with
        | inl msg => (Throw (ChainError msg), w1)
        | inr hash =>
            let w2 := record (WaitReceipt hash)
                        (record (Log ("Transaction sent! Hash: " +:+ hash)) w1) in
            match waitReceipt chain rpcUrl hash with
            | inl msg => (Throw (ChainError msg), w2)
            | inr receipt =>
                (Ok receipt,
                 record (Log ("Transaction confirmed in block: "
                              +:+ pretty (blockNumber receipt))) w2)
            end
        end
    end.
Proof.
  unfold submitTransaction. cbv [mbind M_bind mret M_ret emit throw liftChain].
  destruct (parseTransaction chain tx) as [msg|parsed]; [reflexivity|]. cbv beta iota.
  destruct (sendTransaction chain rpcUrl privateKey parsed) as [msg|hash];
    [reflexivity|]. cbv beta iota.
  destruct (waitReceipt chain rpcUrl hash) as [msg|receipt]; reflexivity.
Qed.

End MoreSignerFacts.

(** X20: past the guards, when the key is accepted, the transaction parses,
    is sent and is confirmed, [processPayment] returns the receipt of
    [tx.wait()] after exactly these steps: two log lines, the provider on
    the endpoint of the payment method, one submission of the parsed
    transaction, its hash printed, the wait, the block printed.  The
    payment status plays no part beyond not being
    [crypto-payer-insufficient-funds]. *)
Theorem X20_processPayment_success
    (chain : ChainClient) (o : Order.t) (privateKey tx address parsed hash : string)
    (receipt : Receipt) (w : World) :
  Payment.status (Order.payment o) <> "crypto-payer-insufficient-funds" ->
  Quote.status (Order.quote o) <> "requires-physical-address" ->
  serializedTransactionOf (Order.payment o) = Some tx -> tx <> "" ->
  newWallet chain privateKey = inr address ->
  parseTransaction chain tx = inr parsed ->
  sendTransaction chain (rpcUrlOf (Payment.method (Order.payment o))) privateKey parsed
  = inr hash ->
  waitReceipt chain (rpcUrlOf (Payment.method (Order.payment o))) hash = inr receipt ->
  processPayment chain (Order.data o) privateKey w
  = (Ok receipt,
     {| trace := trace w
          ++ [ Log ("Payment status: " +:+ Payment.status (Order.payment o));
               Log ("Payment method: " +:+ Payment.method (Order.payment o));
               NewProvider (rpcUrlOf (Payment.method (Order.payment o)));
               SendTransaction (rpcUrlOf (Payment.method (Order.payment o))) parsed;
               Log ("Transaction sent! Hash: " +:+ hash);
               WaitReceipt hash;
               Log ("Transaction confirmed in block: " +:+ pretty (blockNumber receipt)) ];
        statusCalls := statusCalls w |}).
Proof.
  intros Hs Hq Htx Hne Hwallet Hparse Hsend Hwait.
  rewrite (processPayment_past_guards chain o privateKey tx w Hs Hq Htx Hne).
  cbv zeta. rewrite Hwallet. unfold tryCatch.
  rewrite submitTransaction_run, Hparse. cbv zeta. rewrite Hsend, Hwait.
  unfold record. cbn [trace statusCalls]. rewrite <- !app_assoc. reflexivity.
Qed.

Lemma X20_processPayment_success_witness :
  processPayment sampleChain
    (Order.data (sampleOrder "failed" "valid" "polygon" (Some "0x02f8")))
    "0xkey" initialWorld
  = (Ok {| transactionHash := "0xHash"; blockNumber := 1 |},
     {| trace := [ Log "Payment status: failed";
                   Log "Payment method: polygon";
                   NewProvider "https://polygon-rpc.com/";
                   SendTransaction "https://polygon-rpc.com/" "0x02f8";
                   Log "Transaction sent! Hash: 0xHash";
                   WaitReceipt "0xHash";
                   Log "Transaction confirmed in block: 1" ];
        statusCalls := 0 |}).
Proof.
  apply (X20_processPayment_success sampleChain
           (sampleOrder "failed" "valid" "polygon" (Some "0x02f8"))
           "0xkey" "0x02f8" "0xPayer" "0x02f8" "0xHash"
           {| transactionHash := "0xHash"; blockNumber := 1 |} initialWorld);
    first [discriminate | reflexivity].
Defined.

(** X21: past the guards, a private key the wallet rejects or a serialized
    transaction that does not parse ends [processPayment] with the error of
    the chain library and without any submission; the parse error is
    printed by the [catch] block, the wallet error is thrown outside the
    [try] block and is not. *)
Theorem X21_processPayment_fails_before_submission
    (chain : ChainClient) (o : Order.t) (privateKey tx : string) (w : World) :
  Payment.status (Order.payment o) <> "crypto-payer-insufficient-funds" ->
  Quote.status (Order.quote o) <> "requires-physical-address" ->
  serializedTransactionOf (Order.payment o) = Some tx -> tx <> "" ->
  let opened :=
    trace w
    ++ [ Log ("Payment status: " +:+ Payment.status (Order.payment o));
         Log ("Payment method: " +:+ Payment.method (Order.payment o));
         NewProvider (rpcUrlOf (Payment.method (Order.payment o))) ] in
  (forall msg : string,
      newWallet chain privateKey = inl msg ->
      processPayment chain (Order.data o) privateKey w
      = (Throw (ChainError msg), {| trace := opened; statusCalls := statusCalls w |}))
  /\ (forall address msg : string,
        newWallet chain privateKey = inr address ->
        parseTransaction chain tx = inl msg ->
        processPayment chain (Order.data o) privateKey w
        = (Throw (ChainError msg),
           {| trace := opened ++ [LogError "Error sending transaction:" (ChainError msg)];
              statusCalls := statusCalls w |})).
Proof.
  intros Hs Hq Htx Hne opened.
  rewrite (processPayment_past_guards chain o privateKey tx w Hs Hq Htx Hne).
  cbv zeta. split.
  - intros msg ->. reflexivity.
  - intros address msg -> Hparse. unfold tryCatch.
    rewrite submitTransaction_run, Hparse. reflexivity.
Qed.

Lemma X21_processPayment_fails_before_submission_witness :
  processPayment
    {| newWallet := fun _ => inl "invalid private key";
       parseTransaction := parseTransaction sampleChain;
       sendTransaction := sendTransaction sampleChain;
       waitReceipt := waitReceipt sampleChain |}
    (Order.data (sampleOrder "awaiting-payment" "valid" "base" (Some "0x02f8")))
    "not-a-key" initialWorld
  = (Throw (ChainError "invalid private key"),
     {| trace := [ Log "Payment status: awaiting-payment";
                   Log "Payment method: base";
                   NewProvider "https://mainnet.base.org" ];
        statusCalls := 0 |}).
Proof.
  apply (X21_processPayment_fails_before_submission
           {| newWallet := fun _ => inl "invalid private key";
              parseTransaction := parseTransaction sampleChain;
              sendTransaction := sendTransaction sampleChain;
              waitReceipt := waitReceipt sampleChain |}
           (sampleOrder "awaiting-payment" "valid" "base" (Some "0x02f8"))
           "not-a-key" "0x02f8" initialWorld);
    first [discriminate | reflexivity].
Defined.

(** X22: when the submission or the wait for the receipt fails,
    [processPayment] prints the error and rethrows it as it is; the
    transaction has been submitted exactly once and is not submitted
    again, and after a failed submission no receipt is waited for. *)
Theorem X22_processPayment_rethrows_chain_error
    (chain : ChainClient) (o : Order.t) (privateKey tx address parsed : string)
    (w : World) :
  Payment.status (Order.payment o) <> "crypto-payer-insufficient-funds" ->
  Quote.status (Order.quote o) <> "requires-physical-address" ->
  serializedTransactionOf (Order.payment o) = Some tx -> tx <> "" ->
  newWallet chain privateKey = inr address ->
  parseTransaction chain tx = inr parsed ->
  let rpcUrl := rpcUrlOf (Payment.method (Order.payment o)) in
  let submitted :=
    trace w
    ++ [ Log ("Payment status: " +:+ Payment.status (Order.payment o));
         Log ("Payment method: " +:+ Payment.method (Order.payment o));
         NewProvider rpcUrl;
         SendTransaction rpcUrl parsed ] in
  (forall msg : string,
      sendTransaction chain rpcUrl privateKey parsed = inl msg ->
      processPayment chain (Order.data o) privateKey w
      = (Throw (ChainError msg),
         {| trace := submitted ++ [LogError "Error sending transaction:" (ChainError msg)];
            statusCalls := statusCalls w |}))
  /\ (forall hash msg : string,
        sendTransaction chain rpcUrl privateKey parsed = inr hash ->
        waitReceipt chain rpcUrl hash = inl msg ->
        processPayment chain (Order.data o) privateKey w
        = (Throw (ChainError msg),
           {| trace := submitted
                ++ [ Log ("Transaction sent! Hash: " +:+ hash);
                     WaitReceipt hash;
                     LogError "Error sending transaction:" (ChainError msg) ];
              statusCalls := statusCalls w |})).
Proof.
  intros Hs Hq Htx Hne Hwallet Hparse rpcUrl submitted.
  rewrite (processPayment_past_guards chain o privateKey tx w Hs Hq Htx Hne).
  cbv zeta. rewrite Hwallet. unfold tryCatch.
  rewrite submitTransaction_run, Hparse. cbv zeta. fold rpcUrl. split.
  - intros msg ->. unfold submitted. rewrite bind_run. unfold emit, record.
    cbn [trace statusCalls]. rewrite <- !app_assoc. reflexivity.
  - intros hash msg -> ->. unfold submitted. rewrite bind_run. unfold emit, record.
    cbn [trace statusCalls]. rewrite <- !app_assoc. reflexivity.
Qed.

Lemma X22_processPayment_rethrows_chain_error_witness :
  processPayment
    {| newWallet := newWallet sampleChain;
       parseTransaction := parseTransaction sampleChain;
       sendTransaction := fun _ _ _ => inl "insufficient funds for gas";
       waitReceipt := waitReceipt sampleChain |}
    (Order.data (sampleOrder "awaiting-payment" "valid" "base" (Some "0x02f8")))
    "0xkey" initialWorld
  = (Throw (ChainError "insufficient funds for gas"),
     {| trace := [ Log "Payment status: awaiting-payment";
                   Log "Payment method: base";
                   NewProvider "https://mainnet.base.org";
                   SendTransaction "https://mainnet.base.org" "0x02f8";
                   LogError "Error sending transaction:"
                     (ChainError "insufficient funds for gas") ];
        statusCalls := 0 |}).
Proof.
  apply (X22_processPayment_rethrows_chain_error
           {| newWallet := newWallet sampleChain;
              parseTransaction := parseTransaction sampleChain;
              sendTransaction := fun _ _ _ => inl "insufficient funds for gas";
              waitReceipt := waitReceipt sampleChain |}
           (sampleOrder "awaiting-payment" "valid" "base" (Some "0x02f8"))
           "0xkey" "0x02f8" "0xPayer" "0x02f8" initialWorld);
    first [discriminate | reflexivity].
Defined.

(** X23: on an object that is not a full [Order], [processPayment] throws
    a [TypeError] before it prints or contacts anything: when [payment] is
    missing, and when [quote] is missing unless the payment status is
    [crypto-payer-insufficient-funds], which is tested first. *)
Theorem X23_processPayment_missing_fields
    (chain : ChainClient) (order : OrderData.t) (privateKey : string) (w : World) :
  (OrderData.payment order = None ->
     exists msg : string,
       processPayment chain order privateKey w = (Throw (TypeError msg), w))
  /\ (forall pay : Payment.t,
        OrderData.payment order = Some pay ->
        OrderData.quote order = None ->
        processPayment chain order privateKey w
        = if String.eqb (Payment.status pay) "crypto-payer-insufficient-funds"
          then (Throw InsufficientFunds, w)
          else (Throw (TypeError "Cannot read properties of undefined (reading 'status')"),
                w)).
Proof.
  unfold processPayment. split.
  - intros ->. eexists. reflexivity.
  - intros pay -> ->. destruct (String.eqb _ _); reflexivity.
Qed.

Lemma X23_processPayment_missing_fields_witness :
  exists msg : string,
    processPayment sampleChain
      {| OrderData.orderId := Some "ord-1"; OrderData.phase := Some "payment";
         OrderData.quote := None; OrderData.payment := None; OrderData.extra := ∅ |}
      "0xkey" initialWorld
    = (Throw (TypeError msg), initialWorld).
Proof.
  apply (X23_processPayment_missing_fields sampleChain
           {| OrderData.orderId := Some "ord-1"; OrderData.phase := Some "payment";
              OrderData.quote := None; OrderData.payment := None;
              OrderData.extra := ∅ |} "0xkey" initialWorld).
  reflexivity.
Defined.

(** * Further properties of the [buy] action *)

Section MoreFlowFacts.

Variable serviceScript : nat -> GatewayError + StatusResponse.t.
Variable chain : ChainClient.

Lemma statusCalls_log_lines (lines : list string) (w : World) :
  statusCalls (foldl (fun w' l => record (Log l) w') w lines) = statusCalls w.
Proof.
  revert w. induction lines as [|l lines IH]; intros w; simpl; [reflexivity|].
  rewrite IH. reflexivity.
Qed.

Lemma trace_log_lines (lines : list string) (w : World) :
  trace (foldl (fun w' l => record (Log l) w') w lines) = trace w ++ map Log lines.
Proof.
  revert w. induction lines as [|l lines IH]; intros w; simpl.
  - rewrite app_nil_r. reflexivity.
  - rewrite IH, trace_record, <- app_assoc. reflexivity.
Qed.

Lemma offChain_logs (lines : list string) :
  forallb (fun ev => negb (isChainEvent ev)) (map Log lines) = true.
Proof. induction lines as [|l lines IH]; simpl; auto. Qed.

Lemma offChain_bind {A B : Type} (m : M A) (k : A -> M B) :
  OffChain m -> (forall a, OffChain (k a)) -> OffChain (m ≫= k).
Proof.
  intros Hm Hk w. rewrite bind_run. destruct (Hm w) as (evs & Htr & Hevs).
  destruct (m w) as [[a|e] w1]; simpl in Htr; [|exists evs; auto].
  destruct (Hk a w1) as (evs' & Htr' & Hevs').
  exists (evs ++ evs'). rewrite Htr', Htr, app_assoc, forallb_app, Hevs, Hevs'. auto.
Qed.

Lemma offChain_tryCatch {A : Type} (m : M A) (h : Error -> M A) :
  OffChain m -> (forall e, OffChain (h e)) -> OffChain (tryCatch m h).
Proof.
  intros Hm Hh w. unfold tryCatch. destruct (Hm w) as (evs & Htr & Hevs).
  destruct (m w) as [[a|e] w1]; simpl in Htr; [exists evs; auto|].
  destruct (Hh e w1) as (evs' & Htr' & Hevs').
  exists (evs ++ evs'). rewrite Htr', Htr, app_assoc, forallb_app, Hevs, Hevs'. auto.
Qed.

Lemma offChain_emit (ev : Event) : isChainEvent ev = false -> OffChain (emit ev).
Proof. intros H w. exists [ev]. simpl. rewrite H. auto. Qed.

Lemma offChain_ret {A : Type} (a : A) : OffChain (mret a).
Proof. intros w. exists []. simpl. rewrite app_nil_r. auto. Qed.

Lemma offChain_getOrderStatus (orderId apiKey : string) :
  OffChain (getOrderStatus serviceScript orderId apiKey).
Proof.
  intros w. exists [GetOrder orderId]. unfold getOrderStatus.
  destruct (serviceScript (statusCalls w)); auto.
Qed.

Lemma offChain_poller (orderId apiKey : string) (maxAttempts delayMs : nat) :
  OffChain (waitForPaymentPreparation serviceScript orderId apiKey maxAttempts delayMs).
Proof.
  intros w. unfold waitForPaymentPreparation.
  destruct (pollLoop_events serviceScript orderId apiKey maxAttempts delayMs
              (maxAttempts - 0) 0 {| lastPhase := ""; lastPaymentStatus := "" |} w eq_refl)
    as (evs & Htr & Hevs).
  exists evs. split; [exact Htr|].
  clear Htr. induction evs as [|ev evs IH]; [reflexivity|].
  simpl in Hevs |- *. apply andb_true_iff in Hevs as [Hev Hevs].
  rewrite (IH Hevs), andb_true_r. destruct ev; try reflexivity; discriminate.
Qed.

Lemma offChain_report (orderId apiKey email paymentStatus : string)
    (shippingAddress : option ShippingAddress) :
  OffChain (reportFinalOrder serviceScript orderId apiKey email paymentStatus
              shippingAddress).
Proof.
  unfold reportFinalOrder. apply offChain_tryCatch.
  - apply offChain_bind; [apply offChain_getOrderStatus|].
    intros r w. eexists. unfold perform. cbn [snd]. rewrite trace_log_lines.
    split; [reflexivity|apply offChain_logs].
  - intros e. apply offChain_emit. reflexivity.
Qed.

Lemma reportFinalOrder_calls (orderId apiKey email paymentStatus : string)
    (shippingAddress : option ShippingAddress) (w : World) :
  statusCalls (snd (reportFinalOrder serviceScript orderId apiKey email paymentStatus
                      shippingAddress w)) = S (statusCalls w).
Proof.
  unfold reportFinalOrder, tryCatch. rewrite bind_run. unfold getOrderStatus.
  destruct (serviceScript (statusCalls w)) as [e|r].
  - reflexivity.
  - unfold perform. cbn [snd]. rewrite statusCalls_log_lines. reflexivity.
Qed.

(** A pass of the monitor whose call throws. *)
Lemma monitorTry_error (orderId apiKey email : string)
    (shippingAddress : option ShippingAddress) (vars : MonitorVars) (w : World)
    (e : GatewayError) :
  serviceScript (statusCalls w) = inl e ->
  monitorTry serviceScript orderId apiKey email shippingAddress vars w
  = (Break, vars,
     record (LogError "Error checking order status: " (StatusError e))
       (afterGetOrder orderId w)).
Proof. intros H. unfold monitorTry, getOrderStatus. rewrite H. reflexivity. Qed.

(** A pass of the monitor whose call answers with [r]. *)
Lemma monitorTry_pass (orderId apiKey email : string)
    (shippingAddress : option ShippingAddress) (vars : MonitorVars) (w : World)
    (r : StatusResponse.t) :
  serviceScript (statusCalls w) = inr r ->
  exists w3 : World,
    statusCalls w3 = S (statusCalls w)
    /\ (exists evs : list Event,
          trace w3 = trace w ++ evs
          /\ forallb (fun ev => negb (isChainEvent ev)) evs = true)
    /\ monitorTry serviceScript orderId apiKey email shippingAddress vars w
       = (if monitorStops r then Break else Continue,
          {| currentPhase := observedPhase r;
             currentPaymentStatus := observedPaymentStatus r |},
          if monitorStops r then
            snd (reportFinalOrder serviceScript orderId apiKey email
                   (observedPaymentStatus r) shippingAddress w3)
          else record (Sleep 5000) w3).
Proof.
  intros H. unfold monitorTry, getOrderStatus. rewrite H, !logOnChange_eq.
  eexists. split; [|split; [|unfold monitorStops, observedPhase, observedPaymentStatus;
                             destruct (_ || _); reflexivity]].
  - reflexivity.
  - cbn [trace]. eexists. rewrite <- !app_assoc. split; [reflexivity|].
    simpl. repeat case_bool_decide; reflexivity.
Qed.

(** The monitor records no chain event and makes at most one call more
    than it has attempts left. *)
Lemma monitorLoop_bounds (orderId apiKey email : string)
    (shippingAddress : option ShippingAddress) (maxAttempts : nat)
    (n attempts : nat) (vars : MonitorVars) (w : World) :
  maxAttempts - attempts = n ->
  statusCalls (monitorLoop serviceScript orderId apiKey email shippingAddress
                 maxAttempts attempts vars w)
  <= statusCalls w + n + (if n is 0 then 0 else 1)
  /\ exists evs : list Event,
       trace (monitorLoop serviceScript orderId apiKey email shippingAddress
                maxAttempts attempts vars w) = trace w ++ evs
       /\ forallb (fun ev => negb (isChainEvent ev)) evs = true.
Proof.
  revert attempts vars w. induction n as [|n IH]; intros attempts vars w Hn;
    rewrite monitorLoop_step;
    destruct (Nat.ltb_spec attempts maxAttempts) as [Hlt|Hge]; try lia.
  { split; [lia|]. exists []. rewrite app_nil_r. auto. }
  destruct (serviceScript (statusCalls w)) as [e|r] eqn:Hscript.
  - rewrite (monitorTry_error _ _ _ _ _ _ _ Hscript). simpl. split; [lia|].
    eexists. rewrite <- app_assoc. split; [reflexivity|reflexivity].
  - destruct (monitorTry_pass orderId apiKey email shippingAddress vars w r Hscript)
      as (w3 & Hc & (evs & Htr & Hevs) & ->).
    destruct (monitorStops r).
    + rewrite reportFinalOrder_calls. split; [lia|].
      destruct (offChain_report orderId apiKey email (observedPaymentStatus r)
                  shippingAddress w3) as (evs' & Htr' & Hevs').
      exists (evs ++ evs'). rewrite Htr', Htr, app_assoc, forallb_app, Hevs, Hevs'. auto.
    + destruct (IH (S attempts)
                  {| currentPhase := observedPhase r;
                     currentPaymentStatus := observedPaymentStatus r |}
                  (record (Sleep 5000) w3) ltac:(lia)) as [IHc (evs' & Htr' & Hevs')].
      simpl in IHc. split; [destruct n; lia|].
      exists (evs ++ [Sleep 5000] ++ evs').
      rewrite Htr', trace_record, Htr, !forallb_app, Hevs, Hevs'.
      split; [|reflexivity]. rewrite <- !app_assoc. reflexivity.
Qed.


End MoreFlowFacts.

Section FlowBounds.

Variable serviceScript : nat -> GatewayError + StatusResponse.t.
Variable chain : ChainClient.

Lemma callsAtMost_bind {A B : Type} (n1 n2 n : nat) (m : M A) (k : A -> M B) :
  n1 + n2 <= n ->
  CallsAtMost n1 m -> (forall a, CallsAtMost n2 (k a)) -> CallsAtMost n (m ≫= k).
Proof.
  intros Hn Hm Hk w. rewrite bind_run. specialize (Hm w).
  destruct (m w) as [[a|e] w']; simpl in *; [|lia].
  specialize (Hk a w'). lia.
Qed.

Lemma callsAtMost_tryCatch {A : Type} (n1 n2 n : nat) (m : M A) (h : Error -> M A) :
  n1 + n2 <= n ->
  CallsAtMost n1 m -> (forall e, CallsAtMost n2 (h e)) -> CallsAtMost n (tryCatch m h).
Proof.
  intros Hn Hm Hh w. unfold tryCatch. specialize (Hm w).
  destruct (m w) as [[a|e] w']; simpl in *; [lia|].
  specialize (Hh e w'). lia.
Qed.

Lemma callsAtMost_emit (n : nat) (ev : Event) : CallsAtMost n (emit ev).
Proof. intros w. simpl. lia. Qed.

Lemma callsAtMost_ret {A : Type} (n : nat) (a : A) : CallsAtMost n (mret a).
Proof. intros w. simpl. lia. Qed.

Lemma callsAtMost_throw {A : Type} (n : nat) (e : Error) : CallsAtMost n (@throw A e).
Proof. intros w. simpl. lia. Qed.

Lemma callsAtMost_liftChain {A : Type} (n : nat) (r : string + A) :
  CallsAtMost n (liftChain r).
Proof. intros w. destruct r; simpl; lia. Qed.

Lemma callsAtMost_perform (n : nat) (f : World -> World) :
  (forall w, statusCalls (f w) <= statusCalls w + n) -> CallsAtMost n (perform f).
Proof. intros H w. simpl. apply H. Qed.

(** The signer makes no call to the checkout service. *)
Lemma processPayment_calls (order : OrderData.t) (privateKey : string) :
  CallsAtMost 0 (processPayment chain order privateKey).
Proof.
  unfold processPayment.
  destruct (OrderData.payment order) as [pay|]; [|apply callsAtMost_throw].
  destruct (String.eqb (Payment.status pay) _); [apply callsAtMost_throw|].
  destruct (OrderData.quote order) as [q|]; [|apply callsAtMost_throw].
  destruct (String.eqb (Quote.status q) _); [apply callsAtMost_throw|].
  apply (callsAtMost_bind 0 0); [lia|apply callsAtMost_emit|]. intros _.
  apply (callsAtMost_bind 0 0); [lia|apply callsAtMost_emit|]. intros _.
  destruct (serializedTransactionOf pay) as [tx|]; [|apply callsAtMost_throw].
  destruct (String.eqb tx ""); [apply callsAtMost_throw|].
  apply (callsAtMost_bind 0 0); [lia|apply callsAtMost_emit|]. intros _.
  apply (callsAtMost_bind 0 0); [lia|apply callsAtMost_liftChain|]. intros _.
  apply (callsAtMost_tryCatch 0 0); [lia| |].
  - unfold submitTransaction.
    apply (callsAtMost_bind 0 0); [lia|apply callsAtMost_liftChain|]. intros parsed.
    apply (callsAtMost_bind 0 0); [lia|apply callsAtMost_emit|]. intros _.
    apply (callsAtMost_bind 0 0); [lia|apply callsAtMost_liftChain|]. intros hash.
    apply (callsAtMost_bind 0 0); [lia|apply callsAtMost_emit|]. intros _.
    apply (callsAtMost_bind 0 0); [lia|apply callsAtMost_emit|]. intros _.
    apply (callsAtMost_bind 0 0); [lia|apply callsAtMost_liftChain|]. intros receipt.
    apply (callsAtMost_bind 0 0); [lia|apply callsAtMost_emit|]. intros _.
    apply callsAtMost_ret.
  - intros e. apply (callsAtMost_bind 0 0); [lia|apply callsAtMost_emit|]. intros _.
    apply callsAtMost_throw.
Qed.

Lemma payOrder_calls (orderId apiKey privateKey : string) :
  CallsAtMost DEFAULT_POLLING_MAX_ATTEMPTS
    (payOrder serviceScript chain orderId apiKey privateKey).
Proof.
  unfold payOrder.
  apply (callsAtMost_tryCatch DEFAULT_POLLING_MAX_ATTEMPTS 0); [lia| |].
  - apply (callsAtMost_bind DEFAULT_POLLING_MAX_ATTEMPTS 0); [lia| |].
    + intros w. unfold waitForPaymentPreparation.
      destruct (pollLoop_world serviceScript orderId apiKey
                  DEFAULT_POLLING_MAX_ATTEMPTS DEFAULT_POLLING_DELAY_MS
                  (DEFAULT_POLLING_MAX_ATTEMPTS - 0) 0
                  {| lastPhase := ""; lastPaymentStatus := "" |} w eq_refl) as [Hc _].
      exact Hc.
    + intros r. apply (callsAtMost_bind 0 0); [lia|apply callsAtMost_emit|]. intros _.
      apply (callsAtMost_bind 0 0); [lia|apply processPayment_calls|]. intros _.
      apply callsAtMost_emit.
  - intros e. apply (callsAtMost_bind 0 0); [lia|apply callsAtMost_emit|]. intros _.
    apply callsAtMost_emit.
Qed.

(** While the service answers with snapshots that do not stop it, the
    monitor keeps going, one call per attempt. *)
Lemma monitorLoop_continue_run (orderId apiKey email : string)
    (shippingAddress : option ShippingAddress) (maxAttempts : nat)
    (n attempts : nat) (vars : MonitorVars) (w : World) :
  attempts + n <= maxAttempts ->
  (forall i, i < n ->
     exists r, serviceScript (statusCalls w + i) = inr r /\ monitorStops r = false) ->
  exists (vars' : MonitorVars) (w' : World),
    monitorLoop serviceScript orderId apiKey email shippingAddress maxAttempts
      attempts vars w
    = monitorLoop serviceScript orderId apiKey email shippingAddress maxAttempts
        (attempts + n) vars' w'
    /\ statusCalls w' = statusCalls w + n.
Proof.
  revert attempts vars w. induction n as [|n IH]; intros attempts vars w Hle Hrun.
  - exists vars, w. rewrite !Nat.add_0_r. auto.
  - destruct (Hrun 0 ltac:(lia)) as (r & Hr & Hstop). rewrite Nat.add_0_r in Hr.
    destruct (monitorTry_pass serviceScript orderId apiKey email shippingAddress
                vars w r Hr) as (w3 & Hc & _ & Htry).
    rewrite Hstop in Htry.
    destruct (IH (S attempts)
                {| currentPhase := observedPhase r;
                   currentPaymentStatus := observedPaymentStatus r |}
                (record (Sleep 5000) w3)) as (vars' & w' & Heq & Hc').
    + lia.
    + intros i Hi. simpl. rewrite Hc.
      replace (S (statusCalls w) + i) with (statusCalls w + S i) by lia.
      apply Hrun. lia.
    + exists vars', w'. split.
      * rewrite monitorLoop_step, Htry.
        destruct (Nat.ltb_spec attempts maxAttempts) as [_|Hge]; [|lia].
        rewrite Heq. f_equal. lia.
      * rewrite Hc'. simpl. lia.
Qed.

End FlowBounds.


(** X25: for a status other than [valid] the [buy] action neither polls
    nor pays nor monitors: it prints that the order was created, and for
    [requires-physical-address] that an address is needed, and nothing
    else happens. *)
Theorem X25_buy_action_without_valid_quote
    (serviceScript : nat -> GatewayError + StatusResponse.t) (chain : ChainClient)
    (result : PurchaseResult) (apiKey email : string)
    (envPrivateKey : option string) (shippingAddress : option ShippingAddress)
    (w : World) :
  resultStatus result <> "valid" ->
  buyAfterOrder serviceScript chain result apiKey email envPrivateKey shippingAddress w
  = (Ok tt,
     {| trace := trace w
          ++ Log "Order created successfully!"
             :: (if String.eqb (resultStatus result) "requires-physical-address"
                 then [Log "This order requires a shipping address. Please update the order with a valid address."]
                 else []);
        statusCalls := statusCalls w |}).
Proof.
  intros Hvalid. apply String.eqb_neq in Hvalid. unfold buyAfterOrder.
  rewrite Hvalid. rewrite bind_run.
  change (emit ?ev ?w0) with (Ok tt, record ev w0). cbv beta iota. rewrite bind_run.
  destruct (String.eqb (resultStatus result) "requires-physical-address").
  - unfold emit, record. cbn [trace statusCalls]. rewrite <- app_assoc. reflexivity.
  - reflexivity.
Qed.

Lemma X25_buy_action_without_valid_quote_witness :
  buyAfterOrder (scriptOf [] (inr readyResponse)) sampleChain
    {| resultOrderId := "ord-1"; resultStatus := "requires-physical-address" |}
    "sk_staging_key" "buyer@example.com" (Some "0xkey") None initialWorld
  = (Ok tt,
     {| trace := [ Log "Order created successfully!";
                   Log "This order requires a shipping address. Please update the order with a valid address." ];
        statusCalls := 0 |}).
Proof.
  apply (X25_buy_action_without_valid_quote (scriptOf [] (inr readyResponse)) sampleChain
           {| resultOrderId := "ord-1"; resultStatus := "requires-physical-address" |}
           "sk_staging_key" "buyer@example.com" (Some "0xkey") None initialWorld).
  discriminate.
Defined.

(** X26: without a private key ([PRIVATE_KEY] unset or empty) the [buy]
    action records no chain event at all, whatever the status and the
    answers of the service: no provider is opened, nothing is submitted. *)
Theorem X26_no_key_no_chain_event
    (serviceScript : nat -> GatewayError + StatusResponse.t) (chain : ChainClient)
    (result : PurchaseResult) (apiKey email : string)
    (envPrivateKey : option string) (shippingAddress : option ShippingAddress)
    (w : World) :
  strTruthy envPrivateKey = false ->
  exists evs : list Event,
    trace (snd (buyAfterOrder serviceScript chain result apiKey email envPrivateKey
                  shippingAddress w)) = trace w ++ evs
    /\ forallb (fun ev => negb (isChainEvent ev)) evs = true.
Proof.
  intros Hkey.
  enough (H : OffChain (buyAfterOrder serviceScript chain result apiKey email
                          envPrivateKey shippingAddress)) by apply H.
  unfold buyAfterOrder.
  apply offChain_bind; [apply offChain_emit; reflexivity|]. intros _.
  apply offChain_bind.
  - destruct (String.eqb (resultStatus result) "requires-physical-address");
      [apply offChain_emit; reflexivity|].
    destruct (String.eqb (resultStatus result) "valid"); [|apply offChain_ret].
    apply offChain_bind; [apply offChain_emit; reflexivity|]. intros _.
    destruct envPrivateKey as [privateKey|]; [|apply offChain_emit; reflexivity].
    simpl in Hkey. apply negb_false_iff in Hkey. rewrite Hkey.
    apply offChain_emit. reflexivity.
  - intros _. destruct (String.eqb (resultStatus result) "valid"); [|apply offChain_ret].
    apply offChain_bind; [apply offChain_emit; reflexivity|]. intros _ w0.
    unfold perform. cbn [snd].
    apply (monitorLoop_bounds serviceScript _ _ _ _ _ (10 - 0)). reflexivity.
Qed.

Lemma X26_no_key_no_chain_event_witness :
  exists evs : list Event,
    trace (snd (buyAfterOrder (scriptOf [] (inr readyResponse)) sampleChain
                  {| resultOrderId := "ord-1"; resultStatus := "valid" |}
                  "sk_staging_key" "buyer@example.com" (Some "") None initialWorld))
    = trace initialWorld ++ evs
    /\ forallb (fun ev => negb (isChainEvent ev)) evs = true.
Proof.
  apply (X26_no_key_no_chain_event (scriptOf [] (inr readyResponse)) sampleChain
           {| resultOrderId := "ord-1"; resultStatus := "valid" |}
           "sk_staging_key" "buyer@example.com" (Some "") None initialWorld).
  reflexivity.
Defined.

(** X27: when the poller throws, the signer is not called: [payOrder]
    prints the error and the advice to pay manually, and between the start
    of the poller and the end of [payOrder] no chain event is recorded. *)
Theorem X27_no_payment_without_preparation
    (serviceScript : nat -> GatewayError + StatusResponse.t) (chain : ChainClient)
    (orderId apiKey privateKey : string) (w : World) (e : Error) :
  fst (waitForPaymentPreparation serviceScript orderId apiKey
         DEFAULT_POLLING_MAX_ATTEMPTS DEFAULT_POLLING_DELAY_MS w) = Throw e ->
  payOrder serviceScript chain orderId apiKey privateKey w
  = (Ok tt,
     record (Log "You may need to complete the payment manually.")
       (record (LogError "Error processing payment: " e)
          (snd (waitForPaymentPreparation serviceScript orderId apiKey
                  DEFAULT_POLLING_MAX_ATTEMPTS DEFAULT_POLLING_DELAY_MS w))))
  /\ exists evs : list Event,
       trace (snd (payOrder serviceScript chain orderId apiKey privateKey w))
       = trace w ++ evs
       /\ forallb (fun ev => negb (isChainEvent ev)) evs = true.
Proof.
  intros Hthrow.
  assert (Heq : payOrder serviceScript chain orderId apiKey privateKey w
                = (Ok tt,
                   record (Log "You may need to complete the payment manually.")
                     (record (LogError "Error processing payment: " e)
                        (snd (waitForPaymentPreparation serviceScript orderId apiKey
                                DEFAULT_POLLING_MAX_ATTEMPTS DEFAULT_POLLING_DELAY_MS w))))).
  { unfold payOrder, tryCatch. rewrite bind_run.
    destruct (waitForPaymentPreparation _ _ _ _ _ w) as [[r|e'] w1]; simpl in Hthrow;
      [discriminate|]. injection Hthrow as ->. reflexivity. }
  split; [exact Heq|]. rewrite Heq. cbn [snd].
  destruct (offChain_poller serviceScript orderId apiKey DEFAULT_POLLING_MAX_ATTEMPTS
              DEFAULT_POLLING_DELAY_MS w) as (evs & Htr & Hevs).
  exists (evs ++ [LogError "Error processing payment: " e;
                  Log "You may need to complete the payment manually."]).
  rewrite !trace_record, Htr, forallb_app, Hevs, <- !app_assoc. auto.
Qed.

Lemma X27_no_payment_without_preparation_witness :
  payOrder (scriptOf [] (inr pendingResponse)) sampleChain "ord-1" "sk_staging_key" "0xkey"
    initialWorld
  = (Ok tt,
     record (Log "You may need to complete the payment manually.")
       (record (LogError "Error processing payment: " (PreparationNotAvailable 15))
          (snd (waitForPaymentPreparation (scriptOf [] (inr pendingResponse)) "ord-1"
                  "sk_staging_key" DEFAULT_POLLING_MAX_ATTEMPTS DEFAULT_POLLING_DELAY_MS
                  initialWorld)))).
Proof.
  apply (X27_no_payment_without_preparation (scriptOf [] (inr pendingResponse)) sampleChain
           "ord-1" "sk_staging_key" "0xkey" initialWorld (PreparationNotAvailable 15)).
  reflexivity.
Defined.

(** X28: the monitor stops at the first call that throws and at the first
    snapshot with payment status [completed] or phase [complete].  After
    [j] snapshots that do not stop it, with [j < maxAttempts], a call that
    throws ends it after [j + 1] calls, with no retry; a snapshot that
    stops it ends it after [j + 2] calls, the last one fetching the order
    for the report. *)
Theorem X28_monitor_stops
    (serviceScript : nat -> GatewayError + StatusResponse.t)
    (orderId apiKey email : string) (shippingAddress : option ShippingAddress)
    (maxAttempts j : nat) (vars : MonitorVars) (w : World) :
  j < maxAttempts ->
  (forall i, i < j ->
     exists r, serviceScript (statusCalls w + i) = inr r /\ monitorStops r = false) ->
  (forall e : GatewayError,
      serviceScript (statusCalls w + j) = inl e ->
      statusCalls (monitorLoop serviceScript orderId apiKey email shippingAddress
                     maxAttempts 0 vars w) = statusCalls w + j + 1)
  /\ (forall r : StatusResponse.t,
        serviceScript (statusCalls w + j) = inr r ->
        monitorStops r = true ->
        statusCalls (monitorLoop serviceScript orderId apiKey email shippingAddress
                       maxAttempts 0 vars w) = statusCalls w + j + 2).
Proof.
  intros Hj Hrun.
  destruct (monitorLoop_continue_run serviceScript orderId apiKey email shippingAddress
              maxAttempts j 0 vars w ltac:(lia) Hrun) as (vars' & w' & Heq & Hc).
  rewrite Heq, monitorLoop_step. simpl.
  destruct (Nat.ltb_spec j maxAttempts) as [_|Hge]; [|lia]. rewrite <- Hc. split.
  - intros e He. rewrite (monitorTry_error _ _ _ _ _ _ _ _ He). simpl. lia.
  - intros r Hr Hstop.
    destruct (monitorTry_pass serviceScript orderId apiKey email shippingAddress
                vars' w' r Hr) as (w3 & Hc3 & _ & ->).
    rewrite Hstop, reportFinalOrder_calls. lia.
Qed.

Lemma X28_monitor_stops_witness :
  statusCalls (monitorLoop
                 (scriptOf [inr pendingResponse]
                    (inr (sampleResponse "complete" "completed" None)))
                 "ord-1" "sk_staging_key" "buyer@example.com" None 10 0
                 {| currentPhase := "created"; currentPaymentStatus := "unknown" |}
                 initialWorld) = 0 + 1 + 2.
Proof.
  destruct (X28_monitor_stops
              (scriptOf [inr pendingResponse]
                 (inr (sampleResponse "complete" "completed" None)))
              "ord-1" "sk_staging_key" "buyer@example.com" None 10 1
              {| currentPhase := "created"; currentPaymentStatus := "unknown" |}
              initialWorld ltac:(lia)
              ltac:(intros [|i] Hi; [exists pendingResponse; split; reflexivity|lia]))
    as [_ Hstop].
  apply (Hstop (sampleResponse "complete" "completed" None)); reflexivity.
Defined.

(** X29: the monitor makes at most [maxAttempts + 1] calls of
    [getOrderStatus], and a whole [buy] action after the creation of the
    order at most 26: fifteen for the poller, ten for the monitor, one for
    the final report. *)
Theorem X29_status_call_budget
    (serviceScript : nat -> GatewayError + StatusResponse.t) (chain : ChainClient)
    (result : PurchaseResult) (apiKey email : string)
    (envPrivateKey : option string) (shippingAddress : option ShippingAddress) :
  (forall (maxAttempts : nat) (vars : MonitorVars) (w : World),
      statusCalls (monitorLoop serviceScript (resultOrderId result) apiKey email
                     shippingAddress maxAttempts 0 vars w)
      <= statusCalls w + maxAttempts + 1)
  /\ statusCalls (snd (buyAfterOrder serviceScript chain result apiKey email
                         envPrivateKey shippingAddress initialWorld)) <= 26.
Proof.
  assert (Hmon : forall (maxAttempts : nat) (vars : MonitorVars) (w : World),
            statusCalls (monitorLoop serviceScript (resultOrderId result) apiKey email
                           shippingAddress maxAttempts 0 vars w)
            <= statusCalls w + maxAttempts + 1).
  { intros maxAttempts vars w.
    destruct (monitorLoop_bounds serviceScript (resultOrderId result) apiKey email
                shippingAddress maxAttempts (maxAttempts - 0) 0 vars w eq_refl)
      as [Hc _].
    destruct (maxAttempts - 0) eqn:E; lia. }
  split; [exact Hmon|].
  enough (H : CallsAtMost 26 (buyAfterOrder serviceScript chain result apiKey email
                                envPrivateKey shippingAddress)) by apply (H initialWorld).
  unfold buyAfterOrder.
  apply (callsAtMost_bind 0 26); [lia|apply callsAtMost_emit|]. intros _.
  apply (callsAtMost_bind 15 11); [lia| |].
  - destruct (String.eqb (resultStatus result) "requires-physical-address");
      [apply callsAtMost_emit|].
    destruct (String.eqb (resultStatus result) "valid"); [|apply callsAtMost_ret].
    apply (callsAtMost_bind 0 15); [lia|apply callsAtMost_emit|]. intros _.
    destruct envPrivateKey as [privateKey|]; [|apply callsAtMost_emit].
    destruct (String.eqb privateKey ""); [apply callsAtMost_emit|].
    apply payOrder_calls.
  - intros _. destruct (String.eqb (resultStatus result) "valid");
      [|apply callsAtMost_ret].
    apply (callsAtMost_bind 0 11); [lia|apply callsAtMost_emit|]. intros _.
    apply callsAtMost_perform. intros w.
    pose proof (Hmon 10 {| currentPhase := "created"; currentPaymentStatus := "unknown" |}
                  w) as Hten.
    lia.
Qed.

Lemma X6_key_selects_api_and_chain_witness :
  getPaymentMethod "sk_production_abc" (Some "base-sepolia") = "base-sepolia".
Proof.
  apply (X6_key_selects_api_and_chain "sk_production_abc"). discriminate.
Defined.

Lemma X7_normalize_keeps_fields_witness :
  exists res : gmap string JValue,
    Gateway.normalize (JObj (flattenedResponse "payment")) = inr (JObj res)
    /\ res !! "phase" = Some (JStr "payment").
Proof.
  destruct (X7_normalize_keeps_fields (flattenedResponse "payment"))
    as (res & Heq & Hkeep & _).
  exists res. split; [exact Heq|]. apply Hkeep. reflexivity.
Defined.
